(** * The checkout wizard of the Angular forms tutorial

    A shallow embedding of [CheckoutFormComponent] (the multi-step checkout
    form of the tutorial) together with the part of the reactive-forms
    runtime it relies on: controls, groups, the built-in validators, and
    JavaScript's [Number.prototype.toFixed] on IEEE 754 doubles.

    Conventions.
    - A JavaScript [number] that holds a price or an amount is a primitive
      binary64 float; [+] and [*] are the kernel's IEEE operations, which
      round to nearest-even exactly as JavaScript does.
    - [currentStep] and [totalSteps] are integer-valued numbers and are
      modelled in [Z]; the embedding is exact while they stay within
      the range where doubles count exactly (below 2^53), which every state
      reachable from [ngOnInit] does.
    - A JavaScript string is a [string] whose characters stand for code
      units; the patterns of the component only mention ASCII characters.
    - A form group is a finite map from control names to controls.  The
      component holds four groups and hands them around by reference; a
      reference is a [FormRef] and the component is the store. *)

From Stdlib Require Import ZArith String Ascii List Bool Lia Floats DecimalString DecimalN.
From stdpp Require Import gmap strings list.

Set Warnings "-inexact-float".
Local Open Scope string_scope.
Local Open Scope list_scope.
Local Open Scope Z_scope.

(* ===================================================================== *)
(** ** Regular expressions, as [Validators.pattern] uses them             *)
(* ===================================================================== *)

Module Regex.

(** A character class is a list of inclusive ranges, [[a-z0-9]] being
    [[("a","z"); ("0","9")]]. *)
Definition cclass := list (ascii * ascii).

Definition in_range (c : ascii) (r : ascii * ascii) : bool :=
  (N_of_ascii (fst r) <=? N_of_ascii c)%N && (N_of_ascii c <=? N_of_ascii (snd r))%N.

Definition in_class (c : ascii) (cs : cclass) : bool := existsb (in_range c) cs.

Inductive re : Type :=
| Void : re
| Eps : re
| Cls : cclass -> re
| Cat : re -> re -> re
| Alt : re -> re -> re
| Star : re -> re.

(** Derived forms: [r+], [r?], [r{n}] and [r{m,n}] with [n = m + extra]. *)
Definition Plus (r : re) : re := Cat r (Star r).
Definition Opt (r : re) : re := Alt Eps r.

Fixpoint Rep (n : nat) (r : re) : re :=
  match n with
  | O => Eps
  | S n' => Cat r (Rep n' r)
  end.

Fixpoint UpTo (n : nat) (r : re) : re :=
  match n with
  | O => Eps
  | S n' => Opt (Cat r (UpTo n' r))
  end.

Definition RepRange (m extra : nat) (r : re) : re := Cat (Rep m r) (UpTo extra r).

Definition Chr (c : ascii) : re := Cls [(c, c)].

(** The words of a regular expression. *)
Inductive lang : re -> list ascii -> Prop :=
| lang_eps : lang Eps []
| lang_cls c cs : in_class c cs = true -> lang (Cls cs) [c]
| lang_cat r1 r2 w1 w2 : lang r1 w1 -> lang r2 w2 -> lang (Cat r1 r2) (w1 ++ w2)
| lang_alt_l r1 r2 w : lang r1 w -> lang (Alt r1 r2) w
| lang_alt_r r1 r2 w : lang r2 w -> lang (Alt r1 r2) w
| lang_star_nil r : lang (Star r) []
| lang_star_app r w1 w2 : lang r w1 -> lang (Star r) w2 -> lang (Star r) (w1 ++ w2).

(** Matching by derivatives. *)
Fixpoint nullable (r : re) : bool :=
  match r with
  | Void => false
  | Eps => true
  | Cls _ => false
  | Cat r1 r2 => nullable r1 && nullable r2
  | Alt r1 r2 => nullable r1 || nullable r2
  | Star _ => true
  end.

Definition cat (r1 r2 : re) : re :=
  match r1, r2 with
  | Void, _ => Void
  | _, Void => Void
  | Eps, _ => r2
  | _, Eps => r1
  | _, _ => Cat r1 r2
  end.

Definition alt (r1 r2 : re) : re :=
  match r1, r2 with
  | Void, _ => r2
  | _, Void => r1
  | _, _ => Alt r1 r2
  end.

Fixpoint deriv (c : ascii) (r : re) : re :=
  match r with
  | Void => Void
  | Eps => Void
  | Cls cs => if in_class c cs then Eps else Void
  | Cat r1 r2 =>
      alt (cat (deriv c r1) r2) (if nullable r1 then deriv c r2 else Void)
  | Alt r1 r2 => alt (deriv c r1) (deriv c r2)
  | Star r1 => cat (deriv c r1) (Star r1)
  end.

Fixpoint matches (r : re) (w : list ascii) : bool :=
  match w with
  | [] => nullable r
  | c :: w' => matches (deriv c r) w'
  end.

(** [regex.test(s)] for a pattern anchored at both ends ([^...$], no flags). *)
Definition test (r : re) (s : string) : bool := matches r (list_ascii_of_string s).

End Regex.

(* ===================================================================== *)
(** ** JavaScript numbers: truthiness, [String(n)] and [toFixed]          *)
(* ===================================================================== *)

Module JsNumber.

(** Decimal digits of a natural number, ["0"] for zero. *)
Definition digits (n : Z) : string :=
  DecimalString.NilZero.string_of_uint (N.to_uint (Z.to_N n)).

(** [String(n)] for an integer-valued number of magnitude below 10^21
    (a time stamp of [Date.now()] is one). *)
Definition int_to_string (n : Z) : string :=
  if n <? 0 then "-" +:+ digits (- n) else digits n.

(** [ToBoolean] on a number: [0], [-0] and [NaN] are falsy. *)
Definition truthy (x : float) : bool :=
  match Prim2SF x with
  | S754_zero _ | S754_nan => false
  | _ => true
  end.

(** Steps 10.a-10.e of [Number.prototype.toFixed]: the integer [n] (the
    number scaled by [10^f] and rounded) becomes a digit string with a
    decimal point before its last [f] digits, zero-padded on the left. *)
Definition zeros (k : nat) : string := string_of_list_ascii (repeat "0"%char k).

Definition fixed_string (f : nat) (n : Z) : string :=
  let m := digits n in
  match f with
  | O => m
  | S _ =>
      let k := String.length m in
      let m := if (k <=? f)%nat then zeros (f + 1 - k) +:+ m else m in
      let k := String.length m in
      substring 0 (k - f) m +:+ "." +:+ substring (k - f) f m
  end.

(** The integer closest to [m * 2^e * 10^f], the larger one on a tie
    (step 10.a; [m * 2^e] is the non-negative real value of the number). *)
Definition scaled_round (f : nat) (m e : Z) : Z :=
  let s := m * 10 ^ Z.of_nat f in
  if 0 <=? e then s * 2 ^ e
  else (2 * s + 2 ^ (- e)) / 2 ^ (- e + 1).

(** [Number::toString] for a finite number of magnitude at least 10^21,
    given as [m * 2^e] with a 53-bit [m] (so [0 < e] and the value is an
    integer): the shortest digit string that reads back as the same double,
    the closest one when several have that length, in exponent notation. *)
Definition reads_back (m e v : Z) : bool :=
  let x := m * 2 ^ e in
  let up := 2 ^ e in
  let down := if m =? 2 ^ 52 then 2 ^ (e - 1) else 2 ^ e in
  if Z.even m then (2 * x - down <=? 2 * v) && (2 * v <=? 2 * x + up)
  else (2 * x - down <? 2 * v) && (2 * v <? 2 * x + up).

Definition shortest_at (m e : Z) (k : nat) : option Z :=
  let x := m * 2 ^ e in
  let p := 10 ^ (Z.of_nat (String.length (digits x)) - Z.of_nat k) in
  let s := x / p in
  let v1 := s * p in
  let v2 := (s + 1) * p in
  match reads_back m e v1, reads_back m e v2 with
  | true, true =>
      if x - v1 <? v2 - x then Some v1
      else if v2 - x <? x - v1 then Some v2
      else if Z.even s then Some v1 else Some v2
  | true, false => Some v1
  | false, true => Some v2
  | false, false => None
  end.

Fixpoint shortest_from (m e : Z) (k : nat) (fuel : nat) : Z :=
  match fuel with
  | O => m * 2 ^ e
  | S fuel' =>
      match shortest_at m e k with
      | Some v => v
      | None => shortest_from m e (S k) fuel'
      end
  end.

Fixpoint strip_zeros_rev (l : list ascii) : list ascii :=
  match l with
  | "0"%char :: l' => strip_zeros_rev l'
  | _ => l
  end.

Definition significant (s : string) : string :=
  string_of_list_ascii (rev (strip_zeros_rev (rev (list_ascii_of_string s)))).

Definition exponential (m e : Z) : string :=
  let d := digits (shortest_from m e 1 17) in
  let n := Z.of_nat (String.length d) in
  match significant d with
  | String c EmptyString => String c ("e+" +:+ digits (n - 1))
  | String c rest => String c ("." +:+ rest +:+ "e+" +:+ digits (n - 1))
  | EmptyString => d
  end.

(** [x.toFixed(f)] for [0 <= f <= 100]. *)
Definition toFixed (f : nat) (x : float) : string :=
  match Prim2SF x with
  | S754_nan => "NaN"
  | S754_infinity false => "Infinity"
  | S754_infinity true => "-Infinity"
  | S754_zero _ => fixed_string f 0
  | S754_finite neg m e =>
      let sign := if neg then "-" else "" in
      let m := Z.pos m in
      if (0 <=? e) && (10 ^ 21 <=? m * 2 ^ e)
      then sign +:+ exponential m e
      else sign +:+ fixed_string f (scaled_round f m e)
  end.

End JsNumber.

(* ===================================================================== *)
(** ** Reactive forms: values, validators, controls and groups            *)
(* ===================================================================== *)

(** An entry of [cartItems]: [{ id, name, price, quantity }]. *)
Record CartItem : Type := mkCartItem {
  item_id : float;
  item_name : string;
  item_price : float;
  item_quantity : float
}.

Module Forms.

(** What a control of the checkout forms can hold: [null], a boolean (the
    check boxes), a string (inputs and selects) or the array of cart items. *)
Inductive Value : Type :=
| VNull : Value
| VBool : bool -> Value
| VStr : string -> Value
| VItems : list CartItem -> Value.

(** The built-in validators the component configures. *)
Inductive Validator : Type :=
| Required : Validator
| RequiredTrue : Validator
| MinLength : nat -> Validator
| Pattern : Regex.re -> Validator
| Email : Validator.

(** [isEmptyInputValue]: [null], or a string or array of length zero. *)
Definition isEmptyInputValue (v : Value) : bool :=
  match v with
  | VNull => true
  | VBool _ => false
  | VStr s => (String.length s =? 0)%nat
  | VItems l => (length l =? 0)%nat
  end.

(** [value.length] where the value has one. *)
Definition lengthOf (v : Value) : option nat :=
  match v with
  | VStr s => Some (String.length s)
  | VItems l => Some (length l)
  | VNull | VBool _ => None
  end.

Fixpoint join (sep : string) (l : list string) : string :=
  match l with
  | [] => ""
  | [s] => s
  | s :: l' => s +:+ sep +:+ join sep l'
  end.

(** [String(value)], the coercion [RegExp.prototype.test] applies. *)
Definition toString (v : Value) : string :=
  match v with
  | VNull => "null"
  | VBool true => "true"
  | VBool false => "false"
  | VStr s => s
  | VItems l => join "," (map (fun _ => "[object Object]") l)
  end.

(** The pattern behind [Validators.email]:
    [/^(?=.{1,254}$)(?=.{1,64}@)A+(?:\.A+)*@L(?:\.L)*$/] with
    [A = [a-zA-Z0-9!#$%&'*+/=?^_`{|}~-]] and
    [L = [a-zA-Z0-9](?:[a-zA-Z0-9-]{0,61}[a-zA-Z0-9])?].
    The body admits exactly one [@] and no line terminator, so the two
    look-aheads amount to: at most 254 characters, and the [@] within the
    first 65. *)
Definition singles (s : string) : Regex.cclass :=
  map (fun c => (c, c)) (list_ascii_of_string s).

Definition alnum : Regex.cclass :=
  [("a", "z"); ("A", "Z"); ("0", "9")]%char.

Definition atext : Regex.cclass := alnum ++ singles "!#$%&'*+/=?^_`{|}~-".

Definition label : Regex.re :=
  Regex.Cat (Regex.Cls alnum)
    (Regex.Opt (Regex.Cat (Regex.UpTo 61 (Regex.Cls (alnum ++ singles "-")))
                          (Regex.Cls alnum))).

Definition email_body : Regex.re :=
  Regex.Cat (Regex.Plus (Regex.Cls atext))
    (Regex.Cat (Regex.Star (Regex.Cat (Regex.Chr ".") (Regex.Plus (Regex.Cls atext))))
       (Regex.Cat (Regex.Chr "@")
          (Regex.Cat label (Regex.Star (Regex.Cat (Regex.Chr ".") label))))).

Definition email_test (s : string) : bool :=
  (String.length s <=? 254)%nat
  && match index 0 "@" s with
     | Some p => (p <=? 64)%nat
     | None => false
     end
  && Regex.test email_body s.

(** A validator passes when it returns [null] (no error). *)
Definition passes (v : Value) (f : Validator) : bool :=
  match f with
  | Required => negb (isEmptyInputValue v)
  | RequiredTrue =>
      match v with
      | VBool true => true
      | _ => false
      end
  | MinLength n =>
      match lengthOf v with
      | None => true
      | Some O => true
      | Some len => (n <=? len)%nat
      end
  | Pattern r => isEmptyInputValue v || Regex.test r (toString v)
  | Email => isEmptyInputValue v || email_test (toString v)
  end.

(** A [FormControl]: its value, its validators, and the interaction flags. *)
Record FormControl : Type := mkControl {
  value : Value;
  validators : list Validator;
  touched : bool;
  dirty : bool
}.

(** A [FormGroup]: named controls, and the group's own flags (a child that
    is marked touched or dirty marks its parent too). *)
Record FormGroup : Type := mkGroup {
  controls : gmap string FormControl;
  group_touched : bool;
  group_dirty : bool
}.

(** [fb.control(v, validators)] and [fb.group({...})]: fresh, untouched.
    The names of an object literal are distinct. *)
Definition control (v : Value) (fs : list Validator) : FormControl :=
  mkControl v fs false false.

Definition group (cs : list (string * FormControl)) : FormGroup :=
  mkGroup (list_to_map cs) false false.

(** [form.get(key)] *)
Definition get (g : FormGroup) (key : string) : option FormControl :=
  controls g !! key.

(** [control.valid]: every validator passes for the current value.  The
    runtime recomputes the status on every value change and validators are
    synchronous, so the status is a function of the value. *)
Definition control_valid (c : FormControl) : bool :=
  forallb (passes (value c)) (validators c).

(** [form.valid]: no control is invalid (the groups have no validator of
    their own and no control is ever disabled). *)
Definition valid (g : FormGroup) : bool :=
  bool_decide (map_Forall (fun _ c => control_valid c = true) (controls g)).

(** [form.value]: the object of the controls' values. *)
Definition group_value (g : FormGroup) : gmap string Value :=
  value <$> controls g.

(** [control.markAsTouched()], [control.markAsDirty()], on the control
    itself. *)
Definition markAsTouched (c : FormControl) : FormControl :=
  mkControl (value c) (validators c) true (dirty c).

Definition markAsDirty (c : FormControl) : FormControl :=
  mkControl (value c) (validators c) (touched c) true.

Definition setValue (v : Value) (c : FormControl) : FormControl :=
  mkControl v (validators c) (touched c) (dirty c).

(** [form.get(key)?.markAsTouched()]: the control and, through its parent
    link, the group; nothing when the group has no such control. *)
Definition touch (key : string) (g : FormGroup) : FormGroup :=
  match get g key with
  | Some c => mkGroup (<[key := markAsTouched c]> (controls g)) true (group_dirty g)
  | None => g
  end.

(** The user types into, selects or ticks the control [key]: the value
    accessor calls [setValue] and [markAsDirty]. *)
Definition input (key : string) (v : Value) (g : FormGroup) : FormGroup :=
  match get g key with
  | Some c => mkGroup (<[key := markAsDirty (setValue v c)]> (controls g)) (group_touched g) true
  | None => g
  end.

(** What [initializeForms] fixes once and for all: the names of the
    controls and their validators. *)
Definition shape (g : FormGroup) : gmap string (list Validator) :=
  validators <$> controls g.

End Forms.

(* ===================================================================== *)
(** ** [CheckoutFormComponent]                                            *)
(* ===================================================================== *)

Module Checkout.
Import Forms.

(** An entry of [shippingMethods] and of [paymentMethods]. *)
Record ShippingMethod : Type := mkShippingMethod {
  method_id : string;
  method_name : string;
  method_price : float
}.

Record PaymentMethod : Type := mkPaymentMethod {
  payment_id : string;
  payment_name : string
}.

(** The object [getTotals] returns: four strings produced by [toFixed(2)]. *)
Record Totals : Type := mkTotals {
  subtotal : string;
  shipping : string;
  tax : string;
  total : string
}.

(** [orderData.payment]; a field is [None] where [?.value] is [undefined]. *)
Record PaymentSummary : Type := mkPaymentSummary {
  method : option Value;
  cardName : option Value
}.

(** [orderData] once an order is placed ([shippingValue] is its [shipping]
    field, the value of the shipping form). *)
Record OrderData : Type := mkOrderData {
  cart : gmap string Value;
  shippingValue : gmap string Value;
  payment : PaymentSummary;
  totals : Totals;
  orderNumber : string;
  date : string
}.

(** The fields of the component.  [orderData = None] is [null]. *)
Record Component : Type := mkComponent {
  currentStep : Z;
  totalSteps : Z;
  cartForm : FormGroup;
  shippingForm : FormGroup;
  paymentForm : FormGroup;
  confirmationForm : FormGroup;
  cartItems : list CartItem;
  shippingMethods : list ShippingMethod;
  paymentMethods : list PaymentMethod;
  taxRate : float;
  orderData : option OrderData
}.

(** A reference to one of the four form groups of the component. *)
Inductive FormRef : Type := CartForm | ShippingForm | PaymentForm | ConfirmationForm.

#[global] Instance FormRef_eq_dec : EqDecision FormRef.
Proof. solve_decision. Defined.

Definition deref (c : Component) (r : FormRef) : FormGroup :=
  match r with
  | CartForm => cartForm c
  | ShippingForm => shippingForm c
  | PaymentForm => paymentForm c
  | ConfirmationForm => confirmationForm c
  end.

(** Storing the outcome of an in-place update of the group behind [r]. *)
Definition assign (r : FormRef) (g : FormGroup) (c : Component) : Component :=
  match r with
  | CartForm =>
      mkComponent (currentStep c) (totalSteps c) g (shippingForm c) (paymentForm c)
        (confirmationForm c) (cartItems c) (shippingMethods c) (paymentMethods c)
        (taxRate c) (orderData c)
  | ShippingForm =>
      mkComponent (currentStep c) (totalSteps c) (cartForm c) g (paymentForm c)
        (confirmationForm c) (cartItems c) (shippingMethods c) (paymentMethods c)
        (taxRate c) (orderData c)
  | PaymentForm =>
      mkComponent (currentStep c) (totalSteps c) (cartForm c) (shippingForm c) g
        (confirmationForm c) (cartItems c) (shippingMethods c) (paymentMethods c)
        (taxRate c) (orderData c)
  | ConfirmationForm =>
      mkComponent (currentStep c) (totalSteps c) (cartForm c) (shippingForm c)
        (paymentForm c) g (cartItems c) (shippingMethods c) (paymentMethods c)
        (taxRate c) (orderData c)
  end.

Definition set_currentStep (s : Z) (c : Component) : Component :=
  mkComponent s (totalSteps c) (cartForm c) (shippingForm c) (paymentForm c)
    (confirmationForm c) (cartItems c) (shippingMethods c) (paymentMethods c)
    (taxRate c) (orderData c).

Definition set_orderData (o : option OrderData) (c : Component) : Component :=
  mkComponent (currentStep c) (totalSteps c) (cartForm c) (shippingForm c)
    (paymentForm c) (confirmationForm c) (cartItems c) (shippingMethods c)
    (paymentMethods c) (taxRate c) o.

(** *** The patterns of [initializeForms] *)

Definition digit : Regex.re := Regex.Cls [("0", "9")]%char.

(** [\s] within the first 256 code units: tab to carriage return, space and
    the no-break space. *)
Definition whitespace : Regex.cclass := [("009", "013"); (" ", " "); ("160", "160")]%char.

(** [/^\+?[0-9\s\-()]+$/] *)
Definition phonePattern : Regex.re :=
  Regex.Cat (Regex.Opt (Regex.Chr "+"))
    (Regex.Plus (Regex.Cls ([("0", "9")]%char ++ whitespace ++ singles "-()"))).

(** [/^[0-9]{5}$/] *)
Definition postalCodePattern : Regex.re := Regex.Rep 5 digit.

(** [/^[0-9]{16}$/] *)
Definition cardNumberPattern : Regex.re := Regex.Rep 16 digit.

(** [/^(0[1-9]|1[0-2])\/[0-9]{2}$/] *)
Definition expiryDatePattern : Regex.re :=
  Regex.Cat
    (Regex.Alt (Regex.Cat (Regex.Chr "0") (Regex.Cls [("1", "9")]%char))
               (Regex.Cat (Regex.Chr "1") (Regex.Cls [("0", "2")]%char)))
    (Regex.Cat (Regex.Chr "/") (Regex.Rep 2 digit)).

(** [/^[0-9]{3,4}$/] *)
Definition cvvPattern : Regex.re := Regex.RepRange 3 1 digit.

(** *** Construction *)

(** The field initialisers of the class.  The four forms are declared
    without a value and are assigned by [ngOnInit] before any method can
    run; an empty group stands for the unassigned field. *)
Definition created : Component :=
  mkComponent 1 4 (group []) (group []) (group []) (group [])
    [ mkCartItem 1 "Cours Angular Avancé" 99.99 1;
      mkCartItem 2 "Guide Formulaires" 39.99 1 ]
    [ mkShippingMethod "standard" "Standard (5-7 jours)" 5.99;
      mkShippingMethod "express" "Express (2-3 jours)" 14.99;
      mkShippingMethod "overnight" "Nuit (livraison le lendemain)" 29.99 ]
    [ mkPaymentMethod "card" "Carte de Crédit";
      mkPaymentMethod "paypal" "PayPal";
      mkPaymentMethod "bank" "Virement Bancaire" ]
    0.2
    None.

Definition initializeForms (c : Component) : Component :=
  let cartForm := group
    [ ("items", control (VItems (cartItems c)) []);
      ("shippingMethod", control (VStr "standard") [Required]) ] in
  let shippingForm := group
    [ ("firstName", control (VStr "Jean") [Required; MinLength 2]);
      ("lastName", control (VStr "Dupont") [Required; MinLength 2]);
      ("email", control (VStr "jean.dupont@example.com") [Required; Email]);
      ("phone", control (VStr "+33 6 12 34 56 78") [Required; Pattern phonePattern]);
      ("address", control (VStr "123 Rue de Paris") [Required; MinLength 5]);
      ("city", control (VStr "Paris") [Required; MinLength 2]);
      ("postalCode", control (VStr "75001") [Required; Pattern postalCodePattern]);
      ("country", control (VStr "FR") [Required]) ] in
  let paymentForm := group
    [ ("paymentMethod", control (VStr "card") [Required]);
      ("cardName", control (VStr "Jean Dupont") [Required; MinLength 5]);
      ("cardNumber", control (VStr "4111111111111111") [Required; Pattern cardNumberPattern]);
      ("expiryDate", control (VStr "12/25") [Required; Pattern expiryDatePattern]);
      ("cvv", control (VStr "123") [Required; Pattern cvvPattern]);
      ("billingAddress", control (VBool true) []) ] in
  let confirmationForm := group
    [ ("acceptTerms", control (VBool false) [RequiredTrue]);
      ("acceptPrivacy", control (VBool false) [RequiredTrue]) ] in
  mkComponent (currentStep c) (totalSteps c) cartForm shippingForm paymentForm
    confirmationForm (cartItems c) (shippingMethods c) (paymentMethods c)
    (taxRate c) (orderData c).

Definition ngOnInit (c : Component) : Component := initializeForms c.

(** The component as the template first sees it. *)
Definition init : Component := ngOnInit created.

(** *** Methods *)

Definition getCurrentForm (c : Component) : option FormRef :=
  if currentStep c =? 1 then Some CartForm
  else if currentStep c =? 2 then Some ShippingForm
  else if currentStep c =? 3 then Some PaymentForm
  else if currentStep c =? 4 then Some ConfirmationForm
  else None.

Definition getFormAtStep (c : Component) (step : Z) : option FormRef :=
  if step =? 1 then Some CartForm
  else if step =? 2 then Some ShippingForm
  else if step =? 3 then Some PaymentForm
  else if step =? 4 then Some ConfirmationForm
  else None.

(** [Object.keys(form.controls).forEach(key => form.get(key)?.markAsTouched())] *)
Definition markFormTouched (form : option FormRef) (c : Component) : Component :=
  match form with
  | None => c
  | Some r =>
      let g := deref c r in
      assign r (map_fold (fun key _ acc => touch key acc) g (controls g)) c
  end.

Definition nextStep (c : Component) : Component :=
  let currentForm := getCurrentForm c in
  match currentForm with
  | Some r =>
      if valid (deref c r) then
        if currentStep c <? totalSteps c then set_currentStep (currentStep c + 1) c
        else c
      else markFormTouched currentForm c
  | None => markFormTouched currentForm c
  end.

Definition previousStep (c : Component) : Component :=
  if 1 <? currentStep c then set_currentStep (currentStep c - 1) c else c.

(** [m.id === value] for the value read off the control, [None] being the
    [undefined] of a missing control. *)
Definition same_id (id : string) (v : option Value) : bool :=
  match v with
  | Some (VStr s) => String.eqb id s
  | _ => false
  end.

Definition getTotals (c : Component) : Totals :=
  let subtotal :=
    fold_left (fun sum item => sum + item_price item * item_quantity item)%float
      (cartItems c) 0%float in
  let selected := value <$> get (cartForm c) "shippingMethod" in
  let shipping :=
    match find (fun m => same_id (method_id m) selected) (shippingMethods c) with
    | Some m => if JsNumber.truthy (method_price m) then method_price m else 0%float
    | None => 0%float
    end in
  let subtotalWithShipping := (subtotal + shipping)%float in
  let tax := (subtotalWithShipping * taxRate c)%float in
  let total := (subtotalWithShipping + tax)%float in
  mkTotals (JsNumber.toFixed 2 subtotal) (JsNumber.toFixed 2 shipping)
    (JsNumber.toFixed 2 tax) (JsNumber.toFixed 2 total).

(** [placeOrder], with what it reads from its environment: [now] is
    [Date.now()] and [today] is [new Date().toLocaleDateString('fr-FR')].
    The trace written to the console is left out. *)
Definition newOrder (now : Z) (today : string) (c : Component) : OrderData :=
  mkOrderData
    (group_value (cartForm c))
    (group_value (shippingForm c))
    (mkPaymentSummary (value <$> get (paymentForm c) "paymentMethod")
                      (value <$> get (paymentForm c) "cardName"))
    (getTotals c)
    ("ORD-" +:+ JsNumber.int_to_string now)
    today.

Definition placeOrder (now : Z) (today : string) (c : Component) : Component :=
  if valid (confirmationForm c) then set_orderData (Some (newOrder now today c)) c
  else c.

Definition isStepCompleted (c : Component) (step : Z) : bool :=
  match getFormAtStep c step with
  | Some r => valid (deref c r)
  | None => false
  end.

(** *** Sessions: what the user can do, in any order *)

Inductive Event : Type :=
| ClickNext : Event
| ClickPrevious : Event
| ClickPlaceOrder (now : Z) (today : string) : Event
| Edit (form : FormRef) (key : string) (v : Value) : Event
| Leave (form : FormRef) (key : string) : Event.

Definition step (c : Component) (e : Event) : Component :=
  match e with
  | ClickNext => nextStep c
  | ClickPrevious => previousStep c
  | ClickPlaceOrder now today => placeOrder now today c
  | Edit r key v => assign r (input key v (deref c r)) c
  | Leave r key => assign r (touch key (deref c r)) c
  end.

Definition run (es : list Event) : Component := fold_left step es init.

End Checkout.

(* ===================================================================== *)
(** ** The vocabulary of the properties                                   *)
(* ===================================================================== *)

Import Forms Checkout.

(** *** Groups *)

(** Every control of the group has been visited. *)
Definition all_visited (g : FormGroup) : Prop :=
  forall key c, get g key = Some c -> touched c = true.

(** The group once every control it has is marked touched: the group's own
    flag is raised as soon as there is a control to mark. *)
Definition touch_all (g : FormGroup) : FormGroup :=
  mkGroup (markAsTouched <$> controls g)
          (group_touched g || negb (size (controls g) =? 0)%nat)
          (group_dirty g).

(** A control named [key] is there and its value passes the validators [fs]. *)
Definition field_ok (g : FormGroup) (key : string) (fs : list Validator) : Prop :=
  exists v, value <$> get g key = Some v /\ forallb (passes v) fs = true.

(** *** Sessions used as examples *)

(** The session that reaches the confirmation step and ticks both boxes. *)
Definition ready_to_order : list Event :=
  [ ClickNext; ClickNext; ClickNext;
    Edit ConfirmationForm "acceptTerms" (VBool true);
    Edit ConfirmationForm "acceptPrivacy" (VBool true) ].

(** The session that orders and then goes back one step. *)
Definition order_then_back : list Event :=
  ready_to_order ++ [ClickPlaceOrder 1700000000000 "02/11/2026"; ClickPrevious].

(** The payment form with "paypal" selected and the card number erased. *)
Definition paypal_without_card_number : FormGroup :=
  input "cardNumber" (VStr "")
    (input "paymentMethod" (VStr "paypal") (paymentForm init)).

(** *** The steps *)

(** The reading under which [nextStep] marks the current form whenever it
    does not advance. *)
Definition advances_or_marks (c : Component) : Prop :=
  forall r, getCurrentForm c = Some r ->
    if valid (deref c r) && (currentStep c <? 4)
    then currentStep (nextStep c) = currentStep c + 1
    else all_visited (deref (nextStep c) r) /\ currentStep (nextStep c) = currentStep c.

(** Some click on "place order" found the confirmation form valid. *)
Definition placed_while_valid (es : list Event) : Prop :=
  exists es1 now today es2,
    es = es1 ++ ClickPlaceOrder now today :: es2 /\
    valid (confirmationForm (run es1)) = true.

(** *** The order aggregator *)

(** The order aggregator in the words of the specification: the subtotal is
    the sum of [price * quantity] over the cart, taken from left to right;
    the shipping cost is the price listed for the selected method; the tax
    is [(subtotal + shipping) * rate]; the total is
    [subtotal + shipping + tax]; and only the four figures shown are
    rounded, each from its unrounded amount. *)
Fixpoint sum_from (acc : float) (items : list CartItem) : float :=
  match items with
  | [] => acc
  | item :: rest => sum_from (acc + item_price item * item_quantity item)%float rest
  end.

Definition spec_subtotal (items : list CartItem) : float := sum_from 0%float items.

Fixpoint lookup_price (selected : string) (ms : list ShippingMethod) : option float :=
  match ms with
  | [] => None
  | m :: ms' =>
      if String.eqb (method_id m) selected then Some (method_price m)
      else lookup_price selected ms'
  end.

Definition spec_totals (subtotal shippingCost rate : float) : Totals :=
  let tax := ((subtotal + shippingCost) * rate)%float in
  let total := (subtotal + shippingCost + tax)%float in
  mkTotals (JsNumber.toFixed 2 subtotal) (JsNumber.toFixed 2 shippingCost)
           (JsNumber.toFixed 2 tax) (JsNumber.toFixed 2 total).

(** *** The payment step *)

(** The rules of the payment step, in the words of the specification. *)
Definition is_digit (c : ascii) : bool :=
  (48 <=? N_of_ascii c)%N && (N_of_ascii c <=? 57)%N.

Definition all_digits (s : string) : bool := forallb is_digit (list_ascii_of_string s).

Definition digit_value (c : ascii) : N := (N_of_ascii c - 48)%N.

(** At least 5 characters. *)
Definition card_name_ok (s : string) : bool := (5 <=? String.length s)%nat.

(** Exactly 16 digits. *)
Definition card_number_ok (s : string) : bool :=
  (String.length s =? 16)%nat && all_digits s.

(** [MM/YY] with a month from 01 to 12. *)
Definition expiry_ok (s : string) : bool :=
  match list_ascii_of_string s with
  | [m1; m2; sep; y1; y2] =>
      is_digit m1 && is_digit m2 && Ascii.eqb sep "/"
      && (1 <=? 10 * digit_value m1 + digit_value m2)%N
      && (10 * digit_value m1 + digit_value m2 <=? 12)%N
      && is_digit y1 && is_digit y2
  | _ => false
  end.

(** 3 or 4 digits. *)
Definition cvv_ok (s : string) : bool :=
  ((String.length s =? 3)%nat || (String.length s =? 4)%nat) && all_digits s.

Definition card_fields_ok (name number expiry cvv : string) : bool :=
  card_name_ok name && card_number_ok number && expiry_ok expiry && cvv_ok cvv.

(* ===================================================================== *)
(** ** The rest of [CheckoutFormComponent]                                *)
(* ===================================================================== *)

(** *** [control.errors] *)

(** The key under which a failing validator reports in [control.errors].
    [Validators.requiredTrue] reports under [required], as
    [Validators.required] does. *)
Definition error_key (f : Validator) : string :=
  match f with
  | Required => "required"
  | RequiredTrue => "required"
  | MinLength _ => "minlength"
  | Pattern _ => "pattern"
  | Email => "email"
  end.

(** The validators of the control that fail on its value, in the order in
    which their errors are merged; [control.errors] is [null] exactly when
    there is none. *)
Definition errors (c : FormControl) : list Validator :=
  filter (fun f => passes (value c) f = false) (validators c).

(** [control.hasError(key)] *)
Definition hasError (key : string) (c : FormControl) : bool :=
  existsb (fun f => String.eqb (error_key f) key) (errors c).

(** [control.errors['minlength'].requiredLength], [None] when there is no
    [minlength] error (then [hasError('minlength')] is false); a later
    error of the same key overwrites an earlier one when the errors are
    merged. *)
Definition requiredLength (c : FormControl) : option nat :=
  last (omap (fun f => match f with MinLength n => Some n | _ => None end) (errors c)).

(** *** Methods *)

Definition getErrorMessage (fieldName : string) (c : Component) : string :=
  let form := getCurrentForm c in
  let control := r ← form; get (deref c r) fieldName in
  match control with
  | None => ""
  | Some control =>
      match errors control with
      | [] => ""
      | _ =>
          if hasError "required" control then "Ce champ est requis"
          else
            match requiredLength control with
            | Some minLength =>
                "Minimum " +:+ JsNumber.digits (Z.of_nat minLength) +:+ " caractères requis"
            | None =>
                if hasError "email" control then "Email invalide"
                else if hasError "pattern" control then "Format invalide"
                else if hasError "requiredTrue" control
                     then "Vous devez accepter cette condition"
                else "Erreur de validation"
            end
      end
  end.

(** [labels[step - 1] || ''] for an integer [step]. *)
Definition getStepLabel (step : Z) : string :=
  let labels := ["Panier"; "Expédition"; "Paiement"; "Confirmation"] in
  let label := if 0 <=? step - 1 then labels !! Z.to_nat (step - 1) else None in
  match label with
  | Some l => if String.eqb l "" then "" else l
  | None => ""
  end.

(** *** More vocabulary *)

(** At least [n] characters and not empty. *)
Definition at_least (n : nat) (s : string) : bool :=
  negb (String.length s =? 0)%nat && (n <=? String.length s)%nat.

(** A character a phone number may contain: a digit, white space, a
    hyphen or a parenthesis. *)
Definition phone_char (c : ascii) : bool :=
  Regex.in_class c ([("0", "9")]%char ++ whitespace ++ singles "-()").

(** An optional [+], then one or more phone characters. *)
Definition phone_ok (s : string) : bool :=
  match list_ascii_of_string s with
  | [] => false
  | c :: rest =>
      if Ascii.eqb c "+" && negb (length rest =? 0)%nat then forallb phone_char rest
      else forallb phone_char (c :: rest)
  end.

(** Exactly 5 digits. *)
Definition postal_code_ok (s : string) : bool :=
  (String.length s =? 5)%nat && all_digits s.

(* ===================================================================== *)
(** ** [TemplateFormIntro]                                                *)
(* ===================================================================== *)

Module TemplateForm.

Record PersonalInfo : Type := mkPersonalInfo {
  firstName : string;
  lastName : string;
  birthDate : string
}.

Record ContactInfo : Type := mkContactInfo {
  email : string;
  phone : string;
  website : string
}.

Record Passwords : Type := mkPasswords {
  password : string;
  confirmPassword : string
}.

Record FormData : Type := mkFormData {
  personalInfo : PersonalInfo;
  contactInfo : ContactInfo;
  passwords : Passwords;
  acceptTerms : bool
}.

(** The fields of the component that its methods write. *)
Record Component : Type := mkComponent {
  formData : FormData;
  submitted : bool;
  submittedData : option FormData;
  submitError : option string
}.

Definition emptyData : FormData :=
  mkFormData (mkPersonalInfo "" "" "") (mkContactInfo "" "" "") (mkPasswords "" "") false.

Definition created : Component := mkComponent emptyData false None None.

Definition passwordsMatch (c : Component) : bool :=
  String.eqb (password (passwords (formData c))) (confirmPassword (passwords (formData c))).

(** [onSubmit(form)]; of the [NgForm] only [form.valid] is read.  The copy
    made through JSON of a record of strings and booleans is the record. *)
Definition onSubmit (formValid : bool) (c : Component) : Component :=
  if formValid && passwordsMatch c then
    mkComponent (formData c) true (Some (formData c)) None
  else if negb (passwordsMatch c) then
    mkComponent (formData c) true (submittedData c)
      (Some "Les mots de passe ne correspondent pas")
  else
    mkComponent (formData c) true (submittedData c)
      (Some "Veuillez corriger les erreurs du formulaire").

(** [resetForm(form)], as far as the component goes. *)
Definition resetForm (c : Component) : Component := mkComponent emptyData false None None.

Definition prefillForm (c : Component) : Component :=
  mkComponent
    (mkFormData (mkPersonalInfo "Marie" "Dupont" "1992-03-15")
       (mkContactInfo "marie.dupont@example.com" "+33 6 98 76 54 32"
          "https://mariedupont.com")
       (mkPasswords "SecurePass456!" "SecurePass456!")
       true)
    (submitted c) (submittedData c) (submitError c).

Definition clearForm (c : Component) : Component :=
  mkComponent emptyData (submitted c) (submittedData c) (submitError c).

(** What the user and the template do: type into the model, submit, reset,
    prefill, clear. *)
Inductive Event : Type :=
| SetData (d : FormData)
| Submit (formValid : bool)
| Reset
| Prefill
| Clear.

Definition step (c : Component) (e : Event) : Component :=
  match e with
  | SetData d => mkComponent d (submitted c) (submittedData c) (submitError c)
  | Submit formValid => onSubmit formValid c
  | Reset => resetForm c
  | Prefill => prefillForm c
  | Clear => clearForm c
  end.

Definition run (es : list Event) : Component := fold_left step es created.

End TemplateForm.

(* ===================================================================== *)
(** ** [SurveyFormComponent]                                              *)
(* ===================================================================== *)

(** Conventions of this part.
    - The [any] values that occur (option values, control values) are
      [null], booleans, numbers and strings.
    - [Number::toString], needed where a number becomes a property name or
      meets a pattern, is a parameter.
    - An object used as a record of named values is a finite map from its
      own property names; the nested value of a check-box question, whose
      key order [getResults] observes, is a list of properties in creation
      order with [keys] giving the order of [Object.keys].  An assignment
      to the name [__proto__] creates no property.  Reads do not follow the
      prototype chain: the embedding is exact for names that are not members
      of [Object.prototype] ([plain]). *)

Module Survey.
Import Forms.

Inductive AnyValue : Type :=
| ANull : AnyValue
| ABool : bool -> AnyValue
| ANum : float -> AnyValue
| AStr : string -> AnyValue.

(** [a === b] *)
Definition strict_eq (a b : AnyValue) : bool :=
  match a, b with
  | ANull, ANull => true
  | ABool x, ABool y => Bool.eqb x y
  | ANum x, ANum y => PrimFloat.eqb x y
  | AStr x, AStr y => String.eqb x y
  | _, _ => false
  end.

(** [ToBoolean] *)
Definition truthy (v : AnyValue) : bool :=
  match v with
  | ANull => false
  | ABool b => b
  | ANum x => JsNumber.truthy x
  | AStr s => negb (String.eqb s "")
  end.

Inductive QuestionType : Type := TText | TRadio | TCheckbox | TSelect | TTextarea.

Record SurveyOption : Type := mkOption {
  opt_label : string;
  opt_value : AnyValue
}.

(** [interface SurveyQuestion]; an absent optional field is [None]. *)
Record SurveyQuestion : Type := mkQuestion {
  q_id : string;
  q_type : QuestionType;
  q_label : string;
  q_required : bool;
  q_options : option (list SurveyOption);
  q_placeholder : option string;
  q_validators : option (list Validator)
}.

(** *** Objects *)

(** [obj[key] = v] on a map of own properties. *)
Definition assign {A} (key : string) (v : A) (o : gmap string A) : gmap string A :=
  if String.eqb key "__proto__" then o else <[key := v]> o.

(** Properties in creation order. *)
Definition props (A : Type) : Type := list (string * A).

Fixpoint props_get {A} (key : string) (o : props A) : option A :=
  match o with
  | [] => None
  | (k, v) :: o' => if String.eqb k key then Some v else props_get key o'
  end.

Fixpoint props_put {A} (key : string) (v : A) (o : props A) : props A :=
  match o with
  | [] => [(key, v)]
  | (k, w) :: o' => if String.eqb k key then (k, v) :: o' else (k, w) :: props_put key v o'
  end.

Definition props_assign {A} (key : string) (v : A) (o : props A) : props A :=
  if String.eqb key "__proto__" then o else props_put key v o.

(** The array index a property name denotes, if any: a canonical decimal
    numeral below [2^32 - 1]. *)
Definition digit_of (c : ascii) : option N :=
  let n := N_of_ascii c in
  if (48 <=? n)%N && (n <=? 57)%N then Some (n - 48)%N else None.

Fixpoint numeral (acc : N) (w : list ascii) : option N :=
  match w with
  | [] => Some acc
  | c :: w' =>
      match digit_of c with
      | Some d => numeral (10 * acc + d)%N w'
      | None => None
      end
  end.

Definition array_index (key : string) : option N :=
  match list_ascii_of_string key with
  | [] => None
  | c :: rest =>
      if Ascii.eqb c "0" && negb (length rest =? 0)%nat then None
      else
        match numeral 0 (c :: rest) with
        | Some n => if (n <? 4294967295)%N then Some n else None
        | None => None
        end
  end.

Fixpoint insert_by_index (k : N * string) (l : list (N * string)) : list (N * string) :=
  match l with
  | [] => [k]
  | k' :: l' => if (fst k <=? fst k')%N then k :: l else k' :: insert_by_index k l'
  end.

(** [Object.keys(o)]: the array indices in ascending order, then the other
    names in creation order. *)
Definition keys {A} (o : props A) : list string :=
  let names := map fst o in
  let indices := omap (fun k => n ← array_index k; Some (n, k)) names in
  let others := filter (fun k => array_index k = None) names in
  map snd (foldr insert_by_index [] indices) ++ others.

(** *** The form *)

(** A control of the survey form: a [FormControl] with its value and
    validators, or the [FormGroup] of a check-box question with the values
    of its boxes (controls without validators). *)
Inductive Control : Type :=
| Field (value : AnyValue) (validators : list Validator)
| Group (boxes : props AnyValue).

(** An entry of [surveyForm.value]. *)
Inductive FormValue : Type :=
| VField (value : AnyValue)
| VGroup (boxes : props AnyValue).

(** An entry of the object [getResults] returns. *)
Inductive ResultValue : Type :=
| RUndefined : ResultValue
| RAny (v : AnyValue)
| RGroup (boxes : props AnyValue).

Inductive Outcome (A : Type) : Type :=
| Threw : Outcome A
| Returned (a : A) : Outcome A.

Arguments Threw {A}.
Arguments Returned {A} a.

Record Component : Type := mkComponent {
  surveyForm : gmap string Control;
  submitted : bool;
  submittedData : option (gmap string FormValue);
  questions : list SurveyQuestion
}.

(** The survey of the component. *)
Definition defaultQuestions : list SurveyQuestion :=
  [ mkQuestion "satisfaction" TRadio "Êtes-vous satisfait de nos services?" true
      (Some [ mkOption "Très satisfait" (ANum 5); mkOption "Satisfait" (ANum 4);
              mkOption "Neutre" (ANum 3); mkOption "Insatisfait" (ANum 2);
              mkOption "Très insatisfait" (ANum 1) ])
      None None;
    mkQuestion "features" TCheckbox
      "Quelles fonctionnalités appréciez-vous? (cochez les cases)" true
      (Some [ mkOption "Interface utilisateur" (AStr "ui");
              mkOption "Performance" (AStr "performance");
              mkOption "Documentation" (AStr "docs");
              mkOption "Support client" (AStr "support");
              mkOption "Prix" (AStr "price") ])
      None None;
    mkQuestion "recommendation" TRadio "Recommanderiez-vous notre service à un ami?" true
      (Some [ mkOption "Très probablement" (AStr "very-likely");
              mkOption "Probablement" (AStr "likely");
              mkOption "Peut-être" (AStr "maybe");
              mkOption "Probablement pas" (AStr "unlikely");
              mkOption "Pas du tout" (AStr "very-unlikely") ])
      None None;
    mkQuestion "improvements" TTextarea "Qu'auriez-vous aimé améliorer?" false
      None (Some "Vos suggestions...") None;
    mkQuestion "contact" TText "Votre email (pour suivre)" false
      None (Some "votre@email.com") (Some [Email]) ].

(** The component before [ngOnInit], for a given survey; the form is
    unassigned and stands as the empty group. *)
Definition created (qs : list SurveyQuestion) : Component := mkComponent ∅ false None qs.

Definition is_checkbox (q : SurveyQuestion) : bool :=
  match q_type q with
  | TCheckbox => true
  | _ => false
  end.

Section WithNumberToString.

(** [Number::toString] *)
Variable number_to_string : float -> string.

(** [String(v)], also the property name [v] stands for. *)
Definition to_string (v : AnyValue) : string :=
  match v with
  | ANull => "null"
  | ABool true => "true"
  | ABool false => "false"
  | ANum x => number_to_string x
  | AStr s => s
  end.

(** A validator passes on the value. *)
Definition passes_any (v : AnyValue) (f : Validator) : bool :=
  match v with
  | ANull => passes VNull f
  | ABool b => passes (VBool b) f
  | AStr s => passes (VStr s) f
  | ANum x =>
      match f with
      | Required => true
      | RequiredTrue => false
      | MinLength _ => true
      | Pattern r => Regex.test r (number_to_string x)
      | Email => email_test (number_to_string x)
      end
  end.

(** The validators of the control that fail; a group has none. *)
Definition errors (c : Control) : list Validator :=
  match c with
  | Field v fs => filter (fun f => passes_any v f = false) fs
  | Group _ => []
  end.

Definition control_valid (c : Control) : bool :=
  match errors c with
  | [] => true
  | _ => false
  end.

Definition valid (form : gmap string Control) : bool :=
  bool_decide (map_Forall (fun _ c => control_valid c = true) form).

Definition control_value (c : Control) : FormValue :=
  match c with
  | Field v _ => VField v
  | Group boxes => VGroup boxes
  end.

(** [surveyForm.value] *)
Definition form_value (form : gmap string Control) : gmap string FormValue :=
  control_value <$> form.

(** The validators [buildForm] computes for a question. *)
Definition validators_of (q : SurveyQuestion) : list Validator :=
  let validators := if q_required q then [Required] else [] in
  match q_validators q with
  | Some more => validators ++ more
  | None => validators
  end.

Definition checkboxControls (q : SurveyQuestion) : props AnyValue :=
  fold_left (fun acc option => props_assign (to_string (opt_value option)) (ABool false) acc)
    (default [] (q_options q)) [].

(** What [buildForm] stores under the id of a question: the group of its
    boxes, all unticked, for a check-box question; otherwise a control
    holding the empty string, with the validators computed above (which a
    check-box question does not receive). *)
Definition initial_control (q : SurveyQuestion) : Control :=
  if is_checkbox q then Group (checkboxControls q)
  else Field (AStr "") (validators_of q).

Definition buildForm (c : Component) : Component :=
  let formControls :=
    fold_left
      (fun formControls question =>
         assign (q_id question) (initial_control question) formControls)
      (questions c) ∅ in
  mkComponent formControls (submitted c) (submittedData c) (questions c).

Definition ngOnInit (c : Component) : Component := buildForm c.

Definition onSubmit (c : Component) : Component :=
  if valid (surveyForm c)
  then mkComponent (surveyForm c) true (Some (form_value (surveyForm c))) (questions c)
  else mkComponent (surveyForm c) true (submittedData c) (questions c).

(** [control.reset()]: [null] everywhere. *)
Definition reset_control (c : Control) : Control :=
  match c with
  | Field _ fs => Field ANull fs
  | Group boxes => Group (map (fun kv => (fst kv, ANull)) boxes)
  end.

Definition resetSurvey (c : Component) : Component :=
  mkComponent (reset_control <$> surveyForm c) false None (questions c).

(** [path.split('.')] *)
Fixpoint split_dots (cur : list ascii) (w : list ascii) : list string :=
  match w with
  | [] => [string_of_list_ascii (rev cur)]
  | c :: w' =>
      if Ascii.eqb c "." then string_of_list_ascii (rev cur) :: split_dots [] w'
      else split_dots (c :: cur) w'
  end.

(** [surveyForm.get(path)]: a control of the form, or a box of a check-box
    group; nothing lies below a [FormControl]. *)
Definition get (form : gmap string Control) (path : string) : option Control :=
  match split_dots [] (list_ascii_of_string path) with
  | [name] => form !! name
  | [name; box] =>
      match form !! name with
      | Some (Group boxes) => (fun v => Field v []) <$> props_get box boxes
      | _ => None
      end
  | _ => None
  end.

Definition hasError (questionId : string) (c : Component) : bool :=
  submitted c
  && match get (surveyForm c) questionId with
     | Some control => negb (control_valid control)
     | None => false
     end.

Definition getErrorMessage (question : SurveyQuestion) (c : Component) : string :=
  match get (surveyForm c) (q_id question) with
  | None => ""
  | Some control =>
      match errors control with
      | [] => ""
      | errs =>
          if existsb (fun f => String.eqb (error_key f) "required") errs
          then q_label question +:+ " est requise"
          else if existsb (fun f => String.eqb (error_key f) "email") errs
          then "Veuillez entrer une adresse email valide"
          else "Erreur de validation"
      end
  end.

(** The names [Object.keys(value)] yields that hold a truthy value, for the
    value stored under a check-box question; [None] when [Object.keys]
    throws ([null] or [undefined]). *)
Definition ticked (value : option FormValue) : option (list string) :=
  match value with
  | Some (VGroup boxes) =>
      Some (filter (fun key => from_option truthy false (props_get key boxes) = true)
                   (keys boxes))
  | Some (VField (AStr s)) =>
      Some (map (fun i => JsNumber.digits (Z.of_nat i)) (seq 0 (String.length s)))
  | Some (VField (ABool _)) | Some (VField (ANum _)) => Some []
  | Some (VField ANull) | None => None
  end.

Definition option_label (q : SurveyQuestion) (v : AnyValue) : option string :=
  opt_label <$> find (fun o => strict_eq (opt_value o) v) (default [] (q_options q)).

Definition or_else (label : option string) (fallback : string) : string :=
  match label with
  | Some l => if String.eqb l "" then fallback else l
  | None => fallback
  end.

(** The stored value as it is, when it is copied into the results. *)
Definition raw_value (value : option FormValue) : ResultValue :=
  match value with
  | Some (VField v) => RAny v
  | Some (VGroup boxes) => RGroup boxes
  | None => RUndefined
  end.

(** The entry [getResults] computes for one question. *)
Definition result_of (q : SurveyQuestion) (value : option FormValue) : Outcome ResultValue :=
  match q_type q with
  | TCheckbox =>
      match ticked value with
      | None => Threw
      | Some names =>
          let selected := map (fun key => or_else (option_label q (AStr key)) key) names in
          Returned (RAny (AStr (or_else (Some (join ", " selected)) "Aucune sélection")))
      end
  | TRadio =>
      let label :=
        match value with
        | Some (VField v) => option_label q v
        | _ => None
        end in
      match label with
      | Some l => if String.eqb l "" then Returned (raw_value value) else Returned (RAny (AStr l))
      | None => Returned (raw_value value)
      end
  | _ =>
      match value with
      | Some (VField v) => Returned (RAny (if truthy v then v else AStr "Non répondu"))
      | Some (VGroup boxes) => Returned (RGroup boxes)
      | None => Returned (RAny (AStr "Non répondu"))
      end
  end.

Definition getResults (c : Component) : Outcome (option (gmap string ResultValue)) :=
  match submittedData c with
  | None => Returned None
  | Some data =>
      fold_left
        (fun results question =>
           match results with
           | Returned (Some results) =>
               match result_of question (data !! q_id question) with
               | Returned r => Returned (Some (assign (q_label question) r results))
               | Threw => Threw
               end
           | other => other
           end)
        (questions c) (Returned (Some ∅))
  end.

(** *** Sessions *)

(** The user answers a question ([Answer]: the control of a radio, text,
    select or textarea question takes a value), ticks or unticks a box,
    submits, or resets. *)
Inductive Event : Type :=
| Answer (id : string) (v : AnyValue)
| Tick (id box : string) (checked : bool)
| Submit
| Reset.

Definition answer (id : string) (v : AnyValue) (form : gmap string Control) :
    gmap string Control :=
  match form !! id with
  | Some (Field _ fs) => <[id := Field v fs]> form
  | _ => form
  end.

Definition tick (id box : string) (checked : bool) (form : gmap string Control) :
    gmap string Control :=
  match form !! id with
  | Some (Group boxes) =>
      match props_get box boxes with
      | Some _ => <[id := Group (props_put box (ABool checked) boxes)]> form
      | None => form
      end
  | _ => form
  end.

Definition step (c : Component) (e : Event) : Component :=
  match e with
  | Answer id v =>
      mkComponent (answer id v (surveyForm c)) (submitted c) (submittedData c) (questions c)
  | Tick id box checked =>
      mkComponent (tick id box checked (surveyForm c)) (submitted c) (submittedData c)
        (questions c)
  | Submit => onSubmit c
  | Reset => resetSurvey c
  end.

Definition run (qs : list SurveyQuestion) (es : list Event) : Component :=
  fold_left step es (ngOnInit (created qs)).

End WithNumberToString.

End Survey.

(** *** Vocabulary for the survey *)

(** What [buildForm] fixes of a control: the validators of a field, the
    names of the boxes of a group. *)
Inductive ControlShape : Type :=
| FieldShape (validators : list Validator)
| GroupShape (names : list string).

Definition control_shape (c : Survey.Control) : ControlShape :=
  match c with
  | Survey.Field _ fs => FieldShape fs
  | Survey.Group boxes => GroupShape (map fst boxes)
  end.

Definition form_shape (form : gmap string Survey.Control) : gmap string ControlShape :=
  control_shape <$> form.

(** The labels of the options of a question whose box is ticked, in the
    order of the options; an option without label shows its value. *)
Definition ticked_labels (q : Survey.SurveyQuestion) (boxes : Survey.props Survey.AnyValue) :
    list string :=
  omap (fun o =>
          match Survey.opt_value o with
          | Survey.AStr s =>
              if from_option Survey.truthy false (Survey.props_get s boxes)
              then Some (Survey.or_else (Some (Survey.opt_label o)) s)
              else None
          | _ => None
          end)
       (default [] (Survey.q_options q)).

(** The option values of the question are strings, pairwise distinct, none
    of them an array index or [__proto__]. *)
Definition plain_options (q : Survey.SurveyQuestion) : Prop :=
  exists names,
    map Survey.opt_value (default [] (Survey.q_options q)) = map Survey.AStr names /\
    NoDup names /\
    Forall (fun s => Survey.array_index s = None /\ s <> "__proto__") names.

(** [Number::toString] on the numbers that have no fractional part, which
    is what the numeric option values of the survey are; on the other
    numbers this function rounds. *)
Definition integer_to_string (x : float) : string := JsNumber.toFixed 0 x.

(** The entry of the results for a question, [undefined] standing in where
    [getResults] throws. *)
Definition entry_of (data : gmap string Survey.FormValue) (q : Survey.SurveyQuestion) :
    Survey.ResultValue :=
  match Survey.result_of q (data !! Survey.q_id q) with
  | Survey.Returned r => r
  | Survey.Threw => Survey.RUndefined
  end.

(** Three questions of the survey of the component, and a session that
    answers the required ones, ticks two boxes and submits. *)
Definition satisfactionQuestion : Survey.SurveyQuestion :=
  Survey.mkQuestion "satisfaction" Survey.TRadio "Êtes-vous satisfait de nos services?" true
    (Some [ Survey.mkOption "Très satisfait" (Survey.ANum 5);
            Survey.mkOption "Satisfait" (Survey.ANum 4);
            Survey.mkOption "Neutre" (Survey.ANum 3);
            Survey.mkOption "Insatisfait" (Survey.ANum 2);
            Survey.mkOption "Très insatisfait" (Survey.ANum 1) ])
    None None.

Definition featuresQuestion : Survey.SurveyQuestion :=
  Survey.mkQuestion "features" Survey.TCheckbox
    "Quelles fonctionnalités appréciez-vous? (cochez les cases)" true
    (Some [ Survey.mkOption "Interface utilisateur" (Survey.AStr "ui");
            Survey.mkOption "Performance" (Survey.AStr "performance");
            Survey.mkOption "Documentation" (Survey.AStr "docs");
            Survey.mkOption "Support client" (Survey.AStr "support");
            Survey.mkOption "Prix" (Survey.AStr "price") ])
    None None.

Definition contactQuestion : Survey.SurveyQuestion :=
  Survey.mkQuestion "contact" Survey.TText "Votre email (pour suivre)" false
    None (Some "votre@email.com") (Some [Email]).

Definition answered : list Survey.Event :=
  [ Survey.Answer "satisfaction" (Survey.ANum 5);
    Survey.Tick "features" "ui" true;
    Survey.Tick "features" "docs" true;
    Survey.Answer "recommendation" (Survey.AStr "likely");
    Survey.Submit ].

(* ===================================================================== *)
(** ** The matcher decides the language                                   *)
(* ===================================================================== *)

Module RegexFacts.
Import Regex.

Lemma lang_void w : ~ lang Void w.
Proof. intros H. inversion H. Qed.

Lemma lang_eps_inv w : lang Eps w -> w = [].
Proof. intros H. inversion H. reflexivity. Qed.

Lemma lang_cat_inv r1 r2 w :
  lang (Cat r1 r2) w -> exists w1 w2, w = w1 ++ w2 /\ lang r1 w1 /\ lang r2 w2.
Proof. intros H. inversion H; subst. eauto. Qed.

Lemma lang_alt_inv r1 r2 w : lang (Alt r1 r2) w -> lang r1 w \/ lang r2 w.
Proof. intros H. inversion H; subst; auto. Qed.

Lemma lang_cls_inv cs w : lang (Cls cs) w -> exists c, w = [c] /\ in_class c cs = true.
Proof. intros H. inversion H; subst. eauto. Qed.

Lemma nullable_lang r : nullable r = true <-> lang r [].
Proof.
  induction r as [| | cs | r1 IH1 r2 IH2 | r1 IH1 r2 IH2 | r IH]; simpl.
  - split; [discriminate | intros H; inversion H].
  - split; [constructor | reflexivity].
  - split; [discriminate | intros H; inversion H].
  - rewrite andb_true_iff, IH1, IH2. split.
    + intros [H1 H2]. change (@nil ascii) with (@nil ascii ++ []). by constructor.
    + intros H. apply lang_cat_inv in H as (w1 & w2 & Hw & H1 & H2).
      symmetry in Hw. apply app_eq_nil in Hw as [-> ->]. auto.
  - rewrite orb_true_iff, IH1, IH2. split.
    + intros [H | H]; [by apply lang_alt_l | by apply lang_alt_r].
    + apply lang_alt_inv.
  - split; [constructor | reflexivity].
Qed.

Lemma cat_cases r1 r2 :
  (r1 = Void /\ cat r1 r2 = Void) \/ (r2 = Void /\ cat r1 r2 = Void) \/
  (r1 = Eps /\ cat r1 r2 = r2) \/ (r2 = Eps /\ cat r1 r2 = r1) \/
  cat r1 r2 = Cat r1 r2.
Proof. destruct r1, r2; simpl; auto 10. Qed.

Lemma alt_cases r1 r2 :
  (r1 = Void /\ alt r1 r2 = r2) \/ (r2 = Void /\ alt r1 r2 = r1) \/
  alt r1 r2 = Alt r1 r2.
Proof. destruct r1, r2; simpl; auto. Qed.

Lemma lang_cat_smart r1 r2 w : lang (cat r1 r2) w <-> lang (Cat r1 r2) w.
Proof.
  destruct (cat_cases r1 r2) as [[-> ->] | [[-> ->] | [[-> ->] | [[-> ->] | ->]]]];
    [| | | | reflexivity].
  - split; intros H; [inversion H |].
    apply lang_cat_inv in H as (w1 & w2 & _ & H1 & _). inversion H1.
  - split; intros H; [inversion H |].
    apply lang_cat_inv in H as (w1 & w2 & _ & _ & H2). inversion H2.
  - split; intros H.
    + change w with ([] ++ w). constructor; [constructor | exact H].
    + apply lang_cat_inv in H as (w1 & w2 & -> & H1 & H2).
      apply lang_eps_inv in H1 as ->. exact H2.
  - split; intros H.
    + rewrite <- (app_nil_r w). constructor; [exact H | constructor].
    + apply lang_cat_inv in H as (w1 & w2 & -> & H1 & H2).
      apply lang_eps_inv in H2 as ->. rewrite app_nil_r. exact H1.
Qed.

Lemma lang_alt_smart r1 r2 w : lang (alt r1 r2) w <-> lang (Alt r1 r2) w.
Proof.
  destruct (alt_cases r1 r2) as [[-> ->] | [[-> ->] | ->]]; [| | reflexivity].
  - split; intros H; [by apply lang_alt_r |].
    apply lang_alt_inv in H as [H | H]; [inversion H | exact H].
  - split; intros H; [by apply lang_alt_l |].
    apply lang_alt_inv in H as [H | H]; [exact H | inversion H].
Qed.

Lemma lang_star_cons_inv r c w :
  lang (Star r) (c :: w) ->
  exists w1 w2, w = w1 ++ w2 /\ lang r (c :: w1) /\ lang (Star r) w2.
Proof.
  intros H. remember (Star r) as r' eqn:Er. remember (c :: w) as cw eqn:Ew.
  revert c w Ew.
  induction H as [| | | | | |r0 w1 w2 H1 _ H2 IH2]; intros a v Ew; try discriminate.
  injection Er as ->.
  destruct w1 as [|c1 w1]; simpl in Ew.
  - apply IH2; [reflexivity | exact Ew].
  - injection Ew as -> <-. eauto.
Qed.

Lemma deriv_lang c r w : lang (deriv c r) w <-> lang r (c :: w).
Proof.
  revert w.
  induction r as [| | cs | r1 IH1 r2 IH2 | r1 IH1 r2 IH2 | r IH]; intros w; simpl.
  - split; intros H; inversion H.
  - split; intros H; inversion H.
  - destruct (in_class c cs) eqn:Hc; split; intros H.
    + apply lang_eps_inv in H as ->. by constructor.
    + inversion H; subst. constructor.
    + inversion H.
    + inversion H; subst. congruence.
  - rewrite lang_alt_smart. split.
    + intros H. apply lang_alt_inv in H as [H | H].
      * apply lang_cat_smart, lang_cat_inv in H as (w1 & w2 & -> & H1 & H2).
        apply IH1 in H1. change (c :: w1 ++ w2) with ((c :: w1) ++ w2).
        by constructor.
      * destruct (nullable r1) eqn:Hn; [| inversion H].
        apply nullable_lang in Hn. apply IH2 in H.
        change (c :: w) with ([] ++ c :: w). by constructor.
    + intros H. apply lang_cat_inv in H as (w1 & w2 & Hw & H1 & H2).
      destruct w1 as [|c1 w1]; simpl in Hw.
      * subst w2. apply lang_alt_r.
        apply nullable_lang in H1. rewrite H1. by apply IH2.
      * injection Hw as <- ->. apply lang_alt_l, lang_cat_smart.
        constructor; [by apply IH1 | done].
  - rewrite lang_alt_smart. split.
    + intros H. apply lang_alt_inv in H as [H | H];
        [apply lang_alt_l, IH1 | apply lang_alt_r, IH2]; exact H.
    + intros H. apply lang_alt_inv in H as [H | H];
        [apply lang_alt_l, IH1 | apply lang_alt_r, IH2]; exact H.
  - rewrite lang_cat_smart. split.
    + intros H. apply lang_cat_inv in H as (w1 & w2 & -> & H1 & H2).
      apply IH in H1. change (c :: w1 ++ w2) with ((c :: w1) ++ w2).
      by constructor.
    + intros H. apply lang_star_cons_inv in H as (w1 & w2 & -> & H1 & H2).
      constructor; [by apply IH | done].
Qed.

Theorem matches_lang r w : matches r w = true <-> lang r w.
Proof.
  revert r. induction w as [|c w IH]; intros r; simpl.
  - apply nullable_lang.
  - rewrite IH. apply deriv_lang.
Qed.

End RegexFacts.

(* ===================================================================== *)
(** ** [toFixed] on sample numbers                                        *)
(* ===================================================================== *)

Example toFixed_plain : JsNumber.toFixed 2 139.98 = "139.98".
Proof. vm_compute. reflexivity. Qed.

Example toFixed_below_half : JsNumber.toFixed 2 1.005 = "1.00".
Proof. vm_compute. reflexivity. Qed.

Example toFixed_tie_up : JsNumber.toFixed 0 2.5 = "3".
Proof. vm_compute. reflexivity. Qed.

Example toFixed_small_negative : JsNumber.toFixed 2 (-0.001) = "-0.00".
Proof. vm_compute. reflexivity. Qed.

Example toFixed_negative_zero : JsNumber.toFixed 2 (-0) = "0.00".
Proof. vm_compute. reflexivity. Qed.

Example toFixed_pads : JsNumber.toFixed 2 0.05 = "0.05".
Proof. vm_compute. reflexivity. Qed.

Example toFixed_exact_digits : JsNumber.toFixed 2 1.2345678901234568e20 = "123456789012345683968.00".
Proof. vm_compute. reflexivity. Qed.

Example toFixed_large : JsNumber.toFixed 2 1e21 = "1e+21".
Proof. vm_compute. reflexivity. Qed.

Example toFixed_large_digits : JsNumber.toFixed 2 1180591620717411303424 = "1.1805916207174113e+21".
Proof. vm_compute. reflexivity. Qed.

Example toFixed_max : JsNumber.toFixed 2 0x1.fffffffffffffp+1023 = "1.7976931348623157e+308".
Proof. vm_compute. reflexivity. Qed.

Example toFixed_nan : JsNumber.toFixed 2 (0 / 0) = "NaN".
Proof. vm_compute. reflexivity. Qed.

(* ===================================================================== *)
(** ** Properties of groups                                               *)
(* ===================================================================== *)

Lemma valid_lookup (g : FormGroup) :
  valid g = true <-> forall key c, get g key = Some c -> control_valid c = true.
Proof.
  unfold valid, get. rewrite bool_decide_eq_true. apply map_Forall_lookup.
Qed.

Lemma valid_false_lookup (g : FormGroup) :
  valid g = false <-> exists key c, get g key = Some c /\ control_valid c = false.
Proof.
  unfold valid, get. rewrite bool_decide_eq_false. split.
  - intros H. apply map_not_Forall in H; [| intros ??; apply _].
    destruct H as (key & c & Hc & Hv). exists key, c. split; [done |].
    by destruct (control_valid c).
  - intros (key & c & Hc & Hv) H. rewrite map_Forall_lookup in H.
    specialize (H key c Hc). congruence.
Qed.

Lemma touch_fold_sub (g : FormGroup) (m : gmap string FormControl) :
  m ⊆ controls g ->
  map_fold (fun key _ acc => touch key acc) g m =
  mkGroup ((markAsTouched <$> m) ∪ controls g)
          (group_touched g || negb (size m =? 0)%nat)
          (group_dirty g).
Proof.
  revert m. apply (map_fold_weak_ind (fun r m => m ⊆ controls g -> r = _)).
  - intros _. rewrite fmap_empty, map_size_empty, (left_id_L ∅ (∪)). simpl.
    rewrite orb_false_r. by destruct g.
  - intros key x m r Hkey IH Hsub.
    assert (controls g !! key = Some x) as Hx.
    { eapply lookup_weaken; [| exact Hsub]. apply lookup_insert_eq. }
    assert (m ⊆ controls g) as Hm.
    { etrans; [| exact Hsub]. by apply insert_subseteq. }
    rewrite (IH Hm). unfold touch, get. simpl.
    rewrite lookup_union_r by (by rewrite lookup_fmap, Hkey).
    rewrite Hx. f_equal.
    + by rewrite fmap_insert, insert_union_l.
    + rewrite map_size_insert_None by done. simpl. symmetry. apply orb_true_r.
Qed.

Lemma touch_fold (g : FormGroup) :
  map_fold (fun key _ acc => touch key acc) g (controls g) = touch_all g.
Proof.
  rewrite touch_fold_sub by done. unfold touch_all. f_equal.
  apply map_eq. intros key. rewrite lookup_union, !lookup_fmap.
  by destruct (controls g !! key).
Qed.

Lemma touch_all_idem (g : FormGroup) : touch_all (touch_all g) = touch_all g.
Proof.
  unfold touch_all. simpl. f_equal.
  - rewrite <- map_fmap_compose. apply map_fmap_ext. by intros ? [] ?.
  - rewrite map_size_fmap. by destruct (group_touched g), (size (controls g)).
Qed.

Lemma touch_all_visited (g : FormGroup) : all_visited (touch_all g).
Proof.
  intros key c. unfold get, touch_all. simpl. rewrite lookup_fmap.
  destruct (controls g !! key); simpl; [| done]. by intros [= <-].
Qed.

Lemma touch_all_value (g : FormGroup) : group_value (touch_all g) = group_value g.
Proof.
  unfold group_value, touch_all. simpl. rewrite <- map_fmap_compose.
  apply map_fmap_ext. by intros ? [] ?.
Qed.

Lemma touch_all_shape (g : FormGroup) : shape (touch_all g) = shape g.
Proof.
  unfold shape, touch_all. simpl. rewrite <- map_fmap_compose.
  apply map_fmap_ext. by intros ? [] ?.
Qed.

(* ===================================================================== *)
(** ** Properties of the component                                        *)
(* ===================================================================== *)

Lemma deref_assign (r : FormRef) (g : FormGroup) (c : Component) :
  deref (assign r g c) r = g.
Proof. by destruct r. Qed.

Lemma deref_assign_ne (r r' : FormRef) (g : FormGroup) (c : Component) :
  r <> r' -> deref (assign r g c) r' = deref c r'.
Proof. by destruct r, r'. Qed.

Lemma assign_assign (r : FormRef) (g g' : FormGroup) (c : Component) :
  assign r g (assign r g' c) = assign r g c.
Proof. by destruct r. Qed.

Lemma assign_deref (r : FormRef) (c : Component) : assign r (deref c r) c = c.
Proof. by destruct r, c. Qed.

Lemma currentStep_assign (r : FormRef) (g : FormGroup) (c : Component) :
  currentStep (assign r g c) = currentStep c.
Proof. by destruct r. Qed.

Lemma totalSteps_assign (r : FormRef) (g : FormGroup) (c : Component) :
  totalSteps (assign r g c) = totalSteps c.
Proof. by destruct r. Qed.

Lemma orderData_assign (r : FormRef) (g : FormGroup) (c : Component) :
  orderData (assign r g c) = orderData c.
Proof. by destruct r. Qed.

Lemma markFormTouched_some (r : FormRef) (c : Component) :
  markFormTouched (Some r) c = assign r (touch_all (deref c r)) c.
Proof. unfold markFormTouched. by rewrite touch_fold. Qed.

Lemma currentStep_markFormTouched (form : option FormRef) (c : Component) :
  currentStep (markFormTouched form c) = currentStep c.
Proof. destruct form as [r|]; [| done]. simpl. apply currentStep_assign. Qed.

Lemma totalSteps_markFormTouched (form : option FormRef) (c : Component) :
  totalSteps (markFormTouched form c) = totalSteps c.
Proof. destruct form as [r|]; [| done]. simpl. apply totalSteps_assign. Qed.

Lemma orderData_markFormTouched (form : option FormRef) (c : Component) :
  orderData (markFormTouched form c) = orderData c.
Proof. destruct form as [r|]; [| done]. simpl. apply orderData_assign. Qed.

Lemma getCurrentForm_range (c : Component) (r : FormRef) :
  getCurrentForm c = Some r -> 1 <= currentStep c <= 4.
Proof.
  unfold getCurrentForm. repeat case_match; try discriminate; lia.
Qed.

Lemma getCurrentForm_none (c : Component) :
  getCurrentForm c = None <-> currentStep c < 1 \/ 4 < currentStep c.
Proof.
  unfold getCurrentForm. repeat case_match; split; try discriminate; try lia; done.
Qed.

Lemma totalSteps_step (c : Component) (e : Event) : totalSteps (step c e) = totalSteps c.
Proof.
  destruct e; simpl; try apply totalSteps_assign.
  - unfold nextStep. repeat case_match; try done; apply totalSteps_markFormTouched.
  - unfold previousStep. by case_match.
  - unfold placeOrder. by case_match.
Qed.

Lemma currentStep_step_bounds (c : Component) (e : Event) :
  totalSteps c = 4 -> 1 <= currentStep c <= 4 -> 1 <= currentStep (step c e) <= 4.
Proof.
  intros HN Hc. destruct e; simpl; try (by rewrite currentStep_assign).
  - unfold nextStep. repeat case_match; rewrite ?currentStep_markFormTouched;
      simpl; try done. lia.
  - unfold previousStep. case_match; simpl; lia.
  - unfold placeOrder. by case_match.
Qed.

Lemma run_snoc (es : list Event) (e : Event) : run (es ++ [e]) = step (run es) e.
Proof. unfold run. by rewrite fold_left_app. Qed.

Lemma totalSteps_run (es : list Event) : totalSteps (run es) = 4.
Proof.
  induction es as [|e es IH] using rev_ind; [done |].
  by rewrite run_snoc, totalSteps_step.
Qed.

(** C5 - The position stays within [1, 4]: it is 1 after [ngOnInit], every
    action of the user (next, previous, place order, editing or leaving a
    field) keeps it within the bounds, and so it is within the bounds in
    every state a session reaches. *)
Theorem position_in_bounds :
  currentStep init = 1 /\
  (forall c e, totalSteps c = 4 -> 1 <= currentStep c <= 4 ->
               totalSteps (step c e) = 4 /\ 1 <= currentStep (step c e) <= 4) /\
  (forall es, 1 <= currentStep (run es) <= 4).
Proof.
  split; [done |]. split.
  - intros c e HN Hc. split; [by rewrite totalSteps_step |].
    by apply currentStep_step_bounds.
  - intros es. induction es as [|e es IH] using rev_ind; [done |].
    rewrite run_snoc. apply currentStep_step_bounds; [apply totalSteps_run | done].
Qed.

(** C6 - [previousStep] at a position [s] of [1..4]: above 1 the position
    becomes [s - 1], at 1 the component is left as it is; in both cases the
    four form groups (values and flags) and the order data are untouched. *)
Theorem previousStep_retreats (c : Component) (s : Z) :
  currentStep c = s -> 1 <= s <= 4 ->
  (1 < s -> currentStep (previousStep c) = s - 1) /\
  (s = 1 -> previousStep c = c) /\
  (forall r, deref (previousStep c) r = deref c r) /\
  orderData (previousStep c) = orderData c.
Proof.
  intros <- Hs. unfold previousStep. repeat split.
  - intros H. apply Z.ltb_lt in H. by rewrite H.
  - intros H. by rewrite H.
  - intros r. case_match; by destruct r.
  - by case_match.
Qed.

Lemma previousStep_retreats_witness :
  currentStep (previousStep (run [ClickNext; ClickNext])) = 2 /\
  group_value (shippingForm (previousStep (run [ClickNext; ClickNext]))) =
  group_value (shippingForm (run [ClickNext; ClickNext])).
Proof.
  destruct (previousStep_retreats (run [ClickNext; ClickNext]) 3)
    as (Hdec & _ & Hforms & _); [by vm_compute | lia |].
  split; [apply Hdec; lia |].
  exact (f_equal group_value (Hforms ShippingForm)).
Defined.

(** C8 - [markFormTouched] is idempotent: a second call on the same form
    changes nothing, whatever the form reference (or [null]). *)
Theorem markFormTouched_idempotent (form : option FormRef) (c : Component) :
  markFormTouched form (markFormTouched form c) = markFormTouched form c.
Proof.
  destruct form as [r|]; [| done].
  rewrite !markFormTouched_some. by rewrite deref_assign, touch_all_idem, assign_assign.
Qed.

(** C9 - [getCurrentForm] and [getFormAtStep] are the same mapping: at
    position [s] the current form is the form of step [s], which is the cart
    form for 1, the shipping form for 2, the payment form for 3, the
    confirmation form for 4 and [null] for every other [s]. *)
Theorem getCurrentForm_getFormAtStep (c : Component) (s : Z) :
  currentStep c = s ->
  getCurrentForm c = getFormAtStep c s /\
  (deref c <$> getCurrentForm c) = (deref c <$> getFormAtStep c s) /\
  (s = 1 -> getFormAtStep c s = Some CartForm) /\
  (s = 2 -> getFormAtStep c s = Some ShippingForm) /\
  (s = 3 -> getFormAtStep c s = Some PaymentForm) /\
  (s = 4 -> getFormAtStep c s = Some ConfirmationForm) /\
  (s < 1 \/ 4 < s -> getFormAtStep c s = None).
Proof.
  intros <-. unfold getCurrentForm, getFormAtStep.
  repeat split; try (by intros ->).
  intros H. repeat case_match; try done; lia.
Qed.

Lemma getCurrentForm_getFormAtStep_witness :
  getCurrentForm init = getFormAtStep init 1 /\
  getFormAtStep init 1 = Some CartForm.
Proof.
  destruct (getCurrentForm_getFormAtStep init 1) as (H & _ & H1 & _); [done |].
  split; [exact H | by apply H1].
Defined.

(** *** [nextStep] *)

(** C1, as stated, fails at the last step: with both boxes ticked the
    confirmation form is valid, [nextStep] neither advances (the position is
    already 4) nor marks anything, and the boxes keep [touched = false]. *)
Lemma nextStep_last_step_marks_nothing :
  let c := run ready_to_order in
  currentStep c = 4 /\
  valid (confirmationForm c) = true /\
  nextStep c = c /\
  (touched <$> get (confirmationForm (nextStep c)) "acceptTerms") = Some false /\
  ~ advances_or_marks c.
Proof.
  repeat split; try (by vm_compute).
  intros H. specialize (H ConfirmationForm eq_refl).
  assert (valid (deref (run ready_to_order) ConfirmationForm)
          && (currentStep (run ready_to_order) <? 4) = false) as E by (by vm_compute).
  rewrite E in H. destruct H as [H _].
  assert (get (deref (nextStep (run ready_to_order)) ConfirmationForm) "acceptTerms"
          = Some (mkControl (VBool true) [RequiredTrue] false true)) as G by (by vm_compute).
  specialize (H _ _ G). discriminate H.
Qed.

(** C1, amended - [nextStep] with [totalSteps = 4].  When the current form
    is valid and the position is below 4, the position grows by one and no
    form changes.  When the current form is invalid, every control of it is
    marked touched, while the position and the values of all forms stay.
    When the current form is valid at position 4, or when the position has
    no form, nothing changes at all.  [nextStep] is a total function: it
    raises nothing. *)
Theorem nextStep_advances_or_marks (c : Component) :
  totalSteps c = 4 ->
  (forall r, getCurrentForm c = Some r -> valid (deref c r) = true ->
     currentStep c < 4 ->
     currentStep (nextStep c) = currentStep c + 1 /\
     forall r', deref (nextStep c) r' = deref c r') /\
  (forall r, getCurrentForm c = Some r -> valid (deref c r) = false ->
     nextStep c = markFormTouched (Some r) c /\
     currentStep (nextStep c) = currentStep c /\
     all_visited (deref (nextStep c) r) /\
     forall r', group_value (deref (nextStep c) r') = group_value (deref c r')) /\
  (forall r, getCurrentForm c = Some r -> valid (deref c r) = true ->
     currentStep c = 4 -> nextStep c = c) /\
  (getCurrentForm c = None -> nextStep c = c).
Proof.
  intros HN. unfold nextStep. split; [| split; [| split]].
  - intros r Hr Hv Hlt. rewrite Hr, Hv, HN.
    apply Z.ltb_lt in Hlt. rewrite Hlt. split; [done |]. by intros [].
  - intros r Hr Hv. rewrite Hr, Hv. split; [done |].
    split; [apply currentStep_markFormTouched |].
    rewrite markFormTouched_some. split.
    + rewrite deref_assign. apply touch_all_visited.
    + intros r'. destruct (decide (r = r')) as [<- | Hne].
      * rewrite deref_assign. apply touch_all_value.
      * by rewrite deref_assign_ne.
  - intros r Hr Hv H4. by rewrite Hr, Hv, HN, H4.
  - by intros ->.
Qed.

Lemma nextStep_advances_or_marks_witness :
  currentStep (nextStep init) = 2 /\ cartForm (nextStep init) = cartForm init.
Proof.
  destruct (nextStep_advances_or_marks init eq_refl) as (H & _).
  destruct (H CartForm eq_refl) as [Hs Hf]; [by vm_compute | by vm_compute |].
  split; [exact Hs | exact (Hf CartForm)].
Defined.

(** *** [placeOrder] *)

Lemma orderData_nextStep (c : Component) : orderData (nextStep c) = orderData c.
Proof.
  unfold nextStep. repeat case_match; try done; apply orderData_markFormTouched.
Qed.

Lemma orderData_previousStep (c : Component) : orderData (previousStep c) = orderData c.
Proof. unfold previousStep. by case_match. Qed.

Lemma orderData_step (c : Component) (e : Event) :
  orderData (step c e) =
  match e with
  | ClickPlaceOrder now today =>
      if valid (confirmationForm c) then Some (newOrder now today c) else orderData c
  | _ => orderData c
  end.
Proof.
  destruct e; simpl.
  - apply orderData_nextStep.
  - apply orderData_previousStep.
  - unfold placeOrder. by case_match.
  - apply orderData_assign.
  - apply orderData_assign.
Qed.

Lemma snoc_eq_app_cons {A} (l l1 l2 : list A) (x y : A) :
  l ++ [x] = l1 ++ y :: l2 ->
  (l2 = [] /\ l = l1 /\ x = y) \/ (exists l2', l2 = l2' ++ [x] /\ l = l1 ++ y :: l2').
Proof.
  destruct l2 as [|z l2 _] using rev_ind; intros H.
  - left. change (l1 ++ [y]) with (l1 ++ [y]) in H.
    apply app_inj_tail in H as [-> ->]. done.
  - right. rewrite app_comm_cons, app_assoc in H.
    apply app_inj_tail in H as [-> ->]. by exists l2.
Qed.

(** C4, as stated, fails: after ordering at step 4 and clicking "previous",
    the order data is still there while the position is 3. *)
Lemma orderData_below_last_step :
  orderData (run order_then_back) <> None /\
  currentStep (run order_then_back) = 3 /\
  ~ (orderData (run order_then_back) <> None <->
     currentStep (run order_then_back) = 4 /\ placed_while_valid order_then_back).
Proof.
  assert (orderData (run order_then_back) <> None) as Ho.
  { intros H. vm_compute in H. discriminate H. }
  assert (currentStep (run order_then_back) = 3) as Hs by (vm_compute; reflexivity).
  split; [exact Ho |]. split; [exact Hs |].
  intros [H _]. destruct (H Ho) as [H4 _]. rewrite Hs in H4. discriminate H4.
Qed.

(** C4, amended - In every state a session reaches, the order data exists
    if and only if some earlier click on "place order" found the
    confirmation form valid.  Nothing ties its existence to the position:
    [placeOrder] does not look at the position and no action clears the
    order data. *)
Theorem orderData_iff_placed_while_valid (es : list Event) :
  orderData (run es) <> None <-> placed_while_valid es.
Proof.
  induction es as [|e es IH] using rev_ind.
  - split; [done |]. intros (es1 & now & today & es2 & H & _).
    by destruct es1.
  - rewrite run_snoc, orderData_step. split.
    + intros H.
      assert (placed_while_valid es \/
              exists now today, e = ClickPlaceOrder now today /\
                                valid (confirmationForm (run es)) = true) as [Hp | Hp].
      { destruct e; try (left; by apply IH).
        destruct (valid (confirmationForm (run es))) eqn:Hv.
        - right. eauto.
        - left. by apply IH. }
      * destruct Hp as (es1 & now & today & es2 & -> & Hv).
        exists es1, now, today, (es2 ++ [e]). split; [| done].
        by rewrite <- app_assoc.
      * destruct Hp as (now & today & -> & Hv).
        by exists es, now, today, [].
    + intros (es1 & now & today & es2 & Heq & Hv).
      apply snoc_eq_app_cons in Heq as [(-> & -> & ->) | (es2' & -> & ->)].
      * by rewrite Hv.
      * assert (orderData (run (es1 ++ ClickPlaceOrder now today :: es2')) <> None) as Ho.
        { apply IH. by exists es1, now, today, es2'. }
        destruct e; try done. by case_match.
Qed.

(** *** Validity of a group whose controls are known by name *)

Lemma shape_lookup (g : FormGroup) (key : string) (fs : list Validator) :
  shape g !! key = Some fs <-> exists c, get g key = Some c /\ validators c = fs.
Proof.
  unfold shape, get. rewrite lookup_fmap. destruct (controls g !! key) as [c|]; simpl.
  - split; [intros [= <-]; eauto | intros (c' & [= <-] & <-); done].
  - split; [done | intros (c' & ? & _); done].
Qed.

Lemma valid_by_shape (g : FormGroup) (l : list (string * list Validator)) :
  shape g = list_to_map l -> bool_decide (NoDup l.*1) = true ->
  valid g = true <-> Forall (fun kf => field_ok g kf.1 kf.2) l.
Proof.
  intros Hshape Hnd. apply bool_decide_eq_true in Hnd.
  rewrite valid_lookup, Forall_forall. split.
  - intros H [key fs] Hin. simpl.
    assert (shape g !! key = Some fs) as Hs.
    { rewrite Hshape. by apply elem_of_list_to_map. }
    apply shape_lookup in Hs as (c & Hc & <-).
    exists (value c). rewrite Hc. split; [done |]. by apply H in Hc.
  - intros H key c Hc.
    assert (shape g !! key = Some (validators c)) as Hs.
    { apply shape_lookup. eauto. }
    rewrite Hshape in Hs. apply elem_of_list_to_map in Hs; [| done].
    apply H in Hs. destruct Hs as (v & Hv & Hp). simpl in *.
    rewrite Hc in Hv. injection Hv as <-. exact Hp.
Qed.

Lemma field_ok_value (g : FormGroup) (key : string) (fs : list Validator) (v : Value) :
  value <$> get g key = Some v -> field_ok g key fs <-> forallb (passes v) fs = true.
Proof.
  intros Hv. unfold field_ok. rewrite Hv. split.
  - by intros (v' & [= <-] & H).
  - eauto.
Qed.

Lemma shape_confirmationForm :
  shape (confirmationForm init) =
  list_to_map [("acceptTerms", [RequiredTrue]); ("acceptPrivacy", [RequiredTrue])].
Proof. vm_compute. reflexivity. Qed.

Lemma requiredTrue_passes (v : Value) :
  forallb (passes v) [RequiredTrue] = true <-> v = VBool true.
Proof. simpl. rewrite andb_true_r. destruct v as [|[]| |]; split; done. Qed.

Lemma confirmation_valid (g : FormGroup) (terms privacy : Value) :
  shape g = shape (confirmationForm init) ->
  value <$> get g "acceptTerms" = Some terms ->
  value <$> get g "acceptPrivacy" = Some privacy ->
  valid g = true <-> terms = VBool true /\ privacy = VBool true.
Proof.
  intros Hshape Ht Hp. rewrite shape_confirmationForm in Hshape.
  rewrite (valid_by_shape g _ Hshape eq_refl).
  rewrite !Forall_cons, Forall_nil. simpl.
  rewrite (field_ok_value _ _ _ _ Ht), (field_ok_value _ _ _ _ Hp).
  rewrite !requiredTrue_passes. tauto.
Qed.

(** C7 - [placeOrder] on a component whose confirmation form is the one
    [initializeForms] builds, holding [terms] and [privacy]: the form is
    valid exactly when both values are the boolean [true]; then the order
    data is produced; otherwise the call changes nothing, the order data
    included. *)
Theorem placeOrder_requires_consent
    (c : Component) (now : Z) (today : string) (terms privacy : Value) :
  shape (confirmationForm c) = shape (confirmationForm init) ->
  value <$> get (confirmationForm c) "acceptTerms" = Some terms ->
  value <$> get (confirmationForm c) "acceptPrivacy" = Some privacy ->
  (valid (confirmationForm c) = true <-> terms = VBool true /\ privacy = VBool true) /\
  (terms = VBool true /\ privacy = VBool true ->
     orderData (placeOrder now today c) = Some (newOrder now today c)) /\
  (~ (terms = VBool true /\ privacy = VBool true) -> placeOrder now today c = c) /\
  (orderData (placeOrder now today c) <> orderData c -> valid (confirmationForm c) = true).
Proof.
  intros Hshape Ht Hp.
  pose proof (confirmation_valid _ _ _ Hshape Ht Hp) as Hv.
  split; [exact Hv |]. unfold placeOrder. split; [| split].
  - intros H. apply Hv in H. by rewrite H.
  - intros H. destruct (valid (confirmationForm c)); [| done].
    exfalso. apply H, Hv. done.
  - by destruct (valid (confirmationForm c)).
Qed.

Lemma placeOrder_requires_consent_witness :
  placeOrder 1700000000000 "02/11/2026" init = init /\
  orderData (placeOrder 1700000000000 "02/11/2026" (run ready_to_order)) =
  Some (newOrder 1700000000000 "02/11/2026" (run ready_to_order)).
Proof.
  split.
  - refine (proj1 (proj2 (proj2 (placeOrder_requires_consent init 1700000000000
      "02/11/2026" (VBool false) (VBool false) eq_refl eq_refl eq_refl))) _).
    intros [H _]. discriminate H.
  - refine (proj1 (proj2 (placeOrder_requires_consent (run ready_to_order) 1700000000000
      "02/11/2026" (VBool true) (VBool true) _ _ _)) _);
      [vm_compute; reflexivity | vm_compute; reflexivity | vm_compute; reflexivity | done].
Defined.

(** *** [getTotals] *)

Lemma fold_left_sum_from (items : list CartItem) (acc : float) :
  fold_left (fun sum item => sum + item_price item * item_quantity item)%float items acc
  = sum_from acc items.
Proof. revert acc. induction items as [|item rest IH]; intros acc; simpl; [done | apply IH]. Qed.

Lemma find_lookup_price (selected : string) (ms : list ShippingMethod) :
  method_price <$> find (fun m => same_id (method_id m) (Some (VStr selected))) ms
  = lookup_price selected ms.
Proof.
  induction ms as [|m ms IH]; simpl; [done |].
  destruct (String.eqb (method_id m) selected); [done | exact IH].
Qed.

Lemma same_id_true (id : string) (v : option Value) :
  same_id id v = true <-> v = Some (VStr id).
Proof.
  destruct v as [[| | s |]|]; simpl; try (split; done).
  rewrite String.eqb_eq. split; [by intros -> | by intros [= ->]].
Qed.

(** C3, as stated, fails on its own scenario: the total is not 174.97. *)
Lemma getTotals_scenario_total_differs :
  cartItems init = [ mkCartItem 1 "Cours Angular Avancé" 99.99 1;
                     mkCartItem 2 "Guide Formulaires" 39.99 1 ] /\
  value <$> get (cartForm init) "shippingMethod" = Some (VStr "standard") /\
  taxRate init = 0.2%float /\
  total (getTotals init) = "175.16" /\
  getTotals init <> mkTotals "139.98" "5.99" "29.19" "174.97".
Proof.
  repeat split; try (vm_compute; reflexivity).
  intros H. vm_compute in H. discriminate H.
Qed.

(** C3, amended - [getTotals] computes the four figures as the aggregator
    prescribes, each rounded to two decimals from its unrounded amount when
    it is turned into text; and for the cart of the scenario, with
    "standard" shipping and a rate of 0.2, the figures are 139.98, 5.99,
    29.19 and 175.16. *)
Theorem getTotals_order_totals :
  (forall c selected price,
     value <$> get (cartForm c) "shippingMethod" = Some (VStr selected) ->
     lookup_price selected (shippingMethods c) = Some price ->
     JsNumber.truthy price = true ->
     getTotals c = spec_totals (spec_subtotal (cartItems c)) price (taxRate c)) /\
  getTotals init = mkTotals "139.98" "5.99" "29.19" "175.16".
Proof.
  split; [| vm_compute; reflexivity].
  intros c selected price Hsel Hprice Htruthy.
  unfold getTotals, spec_totals, spec_subtotal.
  rewrite fold_left_sum_from, Hsel. rewrite <- find_lookup_price in Hprice.
  destruct (find _ (shippingMethods c)) as [m|]; [| discriminate Hprice].
  injection Hprice as ->. by rewrite Htruthy.
Qed.

(** C10 - With the three shipping methods of the component, when the value
    of the [shippingMethod] control is none of their identifiers (another
    string, [null], or no such control), [getTotals] charges no shipping: it
    returns the four figures computed with a shipping cost of 0, the
    shipping figure being "0.00". *)
Theorem getTotals_unknown_shipping (c : Component) :
  shippingMethods c = shippingMethods init ->
  value <$> get (cartForm c) "shippingMethod" <> Some (VStr "standard") ->
  value <$> get (cartForm c) "shippingMethod" <> Some (VStr "express") ->
  value <$> get (cartForm c) "shippingMethod" <> Some (VStr "overnight") ->
  getTotals c = spec_totals (spec_subtotal (cartItems c)) 0%float (taxRate c) /\
  shipping (getTotals c) = "0.00".
Proof.
  intros Hms H1 H2 H3.
  assert (getTotals c = spec_totals (spec_subtotal (cartItems c)) 0%float (taxRate c)) as E.
  { unfold getTotals, spec_totals, spec_subtotal.
    rewrite fold_left_sum_from, Hms. simpl.
    destruct (same_id "standard" _) eqn:E1; [by apply same_id_true in E1 |].
    destruct (same_id "express" _) eqn:E2; [by apply same_id_true in E2 |].
    destruct (same_id "overnight" _) eqn:E3; [by apply same_id_true in E3 |].
    done. }
  split; [exact E |]. rewrite E. vm_compute. reflexivity.
Qed.

Lemma getTotals_unknown_shipping_witness :
  getTotals (step init (Edit CartForm "shippingMethod" VNull)) =
  mkTotals "139.98" "0.00" "28.00" "167.98".
Proof.
  destruct (getTotals_unknown_shipping (step init (Edit CartForm "shippingMethod" VNull)))
    as [E _]; [reflexivity | by vm_compute | by vm_compute | by vm_compute |].
  rewrite E. vm_compute. reflexivity.
Defined.

(** *** What the patterns of the payment form accept *)

Lemma lang_cat_iff (r1 r2 : Regex.re) (w : list ascii) :
  Regex.lang (Regex.Cat r1 r2) w <->
  exists w1 w2, w = w1 ++ w2 /\ Regex.lang r1 w1 /\ Regex.lang r2 w2.
Proof.
  split; [apply RegexFacts.lang_cat_inv |].
  intros (w1 & w2 & -> & H1 & H2). by constructor.
Qed.

Lemma lang_alt_iff (r1 r2 : Regex.re) (w : list ascii) :
  Regex.lang (Regex.Alt r1 r2) w <-> Regex.lang r1 w \/ Regex.lang r2 w.
Proof.
  split; [apply RegexFacts.lang_alt_inv |].
  intros [H | H]; [by apply Regex.lang_alt_l | by apply Regex.lang_alt_r].
Qed.

Lemma lang_eps_iff (w : list ascii) : Regex.lang Regex.Eps w <-> w = [].
Proof. split; [apply RegexFacts.lang_eps_inv | intros ->; constructor]. Qed.

Lemma lang_cls_iff (cs : Regex.cclass) (w : list ascii) :
  Regex.lang (Regex.Cls cs) w <-> exists c, w = [c] /\ Regex.in_class c cs = true.
Proof.
  split; [apply RegexFacts.lang_cls_inv |]. intros (c & -> & H). by constructor.
Qed.

Lemma lang_cls_cat (cs : Regex.cclass) (r : Regex.re) (w : list ascii) :
  Regex.lang (Regex.Cat (Regex.Cls cs) r) w <->
  exists c w', w = c :: w' /\ Regex.in_class c cs = true /\ Regex.lang r w'.
Proof.
  rewrite lang_cat_iff. split.
  - intros (w1 & w2 & -> & H1 & H2). apply lang_cls_iff in H1 as (c & -> & Hc).
    by exists c, w2.
  - intros (c & w' & -> & Hc & H). exists [c], w'.
    split; [done |]. split; [| done]. apply lang_cls_iff. eauto.
Qed.

Lemma lang_opt (r : Regex.re) (w : list ascii) :
  Regex.lang (Regex.Opt r) w <-> w = [] \/ Regex.lang r w.
Proof. unfold Regex.Opt. by rewrite lang_alt_iff, lang_eps_iff. Qed.

Lemma lang_rep_cls (n : nat) (cs : Regex.cclass) (w : list ascii) :
  Regex.lang (Regex.Rep n (Regex.Cls cs)) w <->
  length w = n /\ forallb (fun c => Regex.in_class c cs) w = true.
Proof.
  revert w. induction n as [|n IH]; intros w; simpl.
  - rewrite lang_eps_iff. split; [by intros -> |]. intros [H _]. by destruct w.
  - rewrite lang_cls_cat. split.
    + intros (c & w' & -> & Hc & H). apply IH in H as [<- H]. simpl.
      by rewrite Hc, H.
    + intros [Hlen H]. destruct w as [|c w']; [discriminate Hlen |].
      simpl in *. apply andb_true_iff in H as [Hc H]. exists c, w'.
      split; [done |]. split; [done |]. apply IH. split; [lia | done].
Qed.

Lemma lang_upto_cls (k : nat) (cs : Regex.cclass) (w : list ascii) :
  Regex.lang (Regex.UpTo k (Regex.Cls cs)) w <->
  (length w <= k)%nat /\ forallb (fun c => Regex.in_class c cs) w = true.
Proof.
  revert w. induction k as [|k IH]; intros w; simpl.
  - rewrite lang_eps_iff. split; [by intros -> |]. intros [H _].
    destruct w; [done | simpl in H; lia].
  - rewrite lang_opt, lang_cls_cat. split.
    + intros [-> | (c & w' & -> & Hc & H)]; [simpl; split; [lia | done] |].
      apply IH in H as [Hlen H]. simpl. rewrite Hc, H. split; [lia | done].
    + intros [Hlen H]. destruct w as [|c w']; [by left | right].
      simpl in *. apply andb_true_iff in H as [Hc H]. exists c, w'.
      split; [done |]. split; [done |]. apply IH. split; [lia | done].
Qed.

Lemma lang_reprange_cls (m k : nat) (cs : Regex.cclass) (w : list ascii) :
  Regex.lang (Regex.RepRange m k (Regex.Cls cs)) w <->
  (m <= length w <= m + k)%nat /\ forallb (fun c => Regex.in_class c cs) w = true.
Proof.
  unfold Regex.RepRange. rewrite lang_cat_iff. split.
  - intros (w1 & w2 & -> & H1 & H2).
    apply lang_rep_cls in H1 as [H1 F1]. apply lang_upto_cls in H2 as [H2 F2].
    rewrite length_app, forallb_app, F1, F2. split; [lia | done].
  - intros [Hlen H]. exists (take m w), (drop m w).
    rewrite <- (take_drop m w), forallb_app in H. apply andb_true_iff in H as [F1 F2].
    split; [by rewrite take_drop |]. split.
    + apply lang_rep_cls. split; [rewrite length_take; lia | done].
    + apply lang_upto_cls. split; [rewrite length_drop; lia | done].
Qed.

Lemma test_lang (r : Regex.re) (s : string) :
  Regex.test r s = true <-> Regex.lang r (list_ascii_of_string s).
Proof. apply RegexFacts.matches_lang. Qed.

Lemma length_list_ascii_of_string (s : string) :
  length (list_ascii_of_string s) = String.length s.
Proof. induction s as [|c s IH]; simpl; [done | by rewrite IH]. Qed.

Lemma in_class_digit (c : ascii) : Regex.in_class c [("0", "9")]%char = is_digit c.
Proof. unfold Regex.in_class, Regex.in_range, is_digit. simpl. by rewrite orb_false_r. Qed.

Lemma forallb_digit (w : list ascii) :
  forallb (fun c => Regex.in_class c [("0", "9")]%char) w = forallb is_digit w.
Proof. induction w as [|c w IH]; [done |]. cbn [forallb]. by rewrite in_class_digit, IH. Qed.

Lemma cardNumberPattern_test (s : string) :
  Regex.test cardNumberPattern s = card_number_ok s.
Proof.
  apply eq_true_iff_eq. rewrite test_lang. unfold cardNumberPattern, digit.
  rewrite lang_rep_cls, forallb_digit, length_list_ascii_of_string.
  unfold card_number_ok, all_digits. rewrite andb_true_iff, Nat.eqb_eq. done.
Qed.

Lemma cvvPattern_test (s : string) : Regex.test cvvPattern s = cvv_ok s.
Proof.
  apply eq_true_iff_eq. rewrite test_lang. unfold cvvPattern, digit.
  rewrite lang_reprange_cls, forallb_digit, length_list_ascii_of_string.
  unfold cvv_ok, all_digits. rewrite andb_true_iff, orb_true_iff, !Nat.eqb_eq.
  split; intros [H1 H2]; (split; [lia | done]).
Qed.

Lemma in_class_range (c lo hi : ascii) :
  Regex.in_class c [(lo, hi)] = true <->
  (N_of_ascii lo <= N_of_ascii c <= N_of_ascii hi)%N.
Proof.
  unfold Regex.in_class, Regex.in_range. simpl.
  rewrite orb_false_r, andb_true_iff, !N.leb_le. done.
Qed.

Lemma is_digit_range (c : ascii) : is_digit c = true <-> (48 <= N_of_ascii c <= 57)%N.
Proof. unfold is_digit. rewrite andb_true_iff, !N.leb_le. done. Qed.

Lemma ascii_code_inj (a b : ascii) : N_of_ascii a = N_of_ascii b -> a = b.
Proof. intros H. by rewrite <- (ascii_N_embedding a), <- (ascii_N_embedding b), H. Qed.

Lemma expiryDatePattern_lang (w : list ascii) :
  Regex.lang expiryDatePattern w <->
  exists m1 m2 y1 y2,
    w = [m1; m2; "/"%char; y1; y2] /\
    ((N_of_ascii m1 = 48 /\ 49 <= N_of_ascii m2 <= 57) \/
     (N_of_ascii m1 = 49 /\ 48 <= N_of_ascii m2 <= 50))%N /\
    is_digit y1 = true /\ is_digit y2 = true.
Proof.
  unfold expiryDatePattern, digit, Regex.Chr. rewrite lang_cat_iff. split.
  - intros (w1 & w2 & -> & H1 & H2).
    apply lang_cls_cat in H2 as (sep & w3 & -> & Hsep & H3).
    apply in_class_range in Hsep. simpl in Hsep.
    assert (sep = "/"%char) as -> by (apply ascii_code_inj; simpl; lia).
    apply lang_rep_cls in H3 as [Hlen Hd]. rewrite forallb_digit in Hd.
    destruct w3 as [|y1 [|y2 [|? ?]]]; try discriminate Hlen.
    simpl in Hd. rewrite andb_true_r in Hd. apply andb_true_iff in Hd as [Hy1 Hy2].
    assert (exists m1 m2, w1 = [m1; m2] /\
      ((N_of_ascii m1 = 48 /\ 49 <= N_of_ascii m2 <= 57) \/
       (N_of_ascii m1 = 49 /\ 48 <= N_of_ascii m2 <= 50))%N) as (m1 & m2 & -> & Hm).
    { apply lang_alt_iff in H1 as [H1 | H1];
        apply lang_cls_cat in H1 as (m1 & w' & -> & Hm1 & H1);
        apply lang_cls_iff in H1 as (m2 & -> & Hm2);
        apply in_class_range in Hm1, Hm2; simpl in Hm1, Hm2;
        exists m1, m2; (split; [done | lia]). }
    by exists m1, m2, y1, y2.
  - intros (m1 & m2 & y1 & y2 & -> & Hm & Hy1 & Hy2).
    exists [m1; m2], ["/"%char; y1; y2]. split; [done |]. split.
    + apply lang_alt_iff.
      destruct Hm as [[H1 H2] | [H1 H2]]; [left | right];
        apply lang_cls_cat; exists m1, [m2];
        (split; [done |]); (split; [apply in_class_range; simpl; lia |]);
        apply lang_cls_iff; exists m2; (split; [done |]);
        apply in_class_range; simpl; lia.
    + apply lang_cls_cat. exists "/"%char, [y1; y2].
      split; [done |]. split; [done |]. apply lang_rep_cls.
      split; [done |]. rewrite forallb_digit. simpl. by rewrite Hy1, Hy2.
Qed.

Lemma expiryDatePattern_test (s : string) :
  Regex.test expiryDatePattern s = expiry_ok s.
Proof.
  apply eq_true_iff_eq. rewrite test_lang, expiryDatePattern_lang.
  unfold expiry_ok. split.
  - intros (m1 & m2 & y1 & y2 & -> & Hm & Hy1 & Hy2).
    rewrite Hy1, Hy2, !andb_true_r. simpl.
    rewrite !andb_true_iff, !is_digit_range, !N.leb_le.
    unfold digit_value. lia.
  - destruct (list_ascii_of_string s) as [|m1 [|m2 [|sep [|y1 [|y2 [|? ?]]]]]];
      try discriminate.
    rewrite !andb_true_iff, !is_digit_range, !N.leb_le, Ascii.eqb_eq.
    unfold digit_value. intros ((((((Hm1 & Hm2) & ->) & Hlo) & Hhi) & Hy1) & Hy2).
    exists m1, m2, y1, y2. rewrite !is_digit_range. split; [done |]. lia.
Qed.

(** *** The payment step *)

Lemma field_ok_of_shape (g : FormGroup) (key : string) :
  shape g !! key = Some [] -> field_ok g key [].
Proof.
  intros H. apply shape_lookup in H as (c & Hc & _).
  exists (value c). by rewrite Hc.
Qed.

Lemma passes_required (s : string) :
  forallb (passes (VStr s)) [Required] = negb (String.length s =? 0)%nat.
Proof. simpl. by rewrite andb_true_r. Qed.

Lemma passes_card_name (s : string) :
  forallb (passes (VStr s)) [Required; MinLength 5] = card_name_ok s.
Proof.
  unfold card_name_ok. simpl.
  by destruct (String.length s) as [|[|[|[|[|k]]]]].
Qed.

Lemma passes_required_pattern (r : Regex.re) (s : string) :
  forallb (passes (VStr s)) [Required; Pattern r] =
  negb (String.length s =? 0)%nat && Regex.test r s.
Proof. simpl. rewrite andb_true_r. by destruct (String.length s). Qed.

Lemma passes_card_number (s : string) :
  forallb (passes (VStr s)) [Required; Pattern cardNumberPattern] = card_number_ok s.
Proof.
  rewrite passes_required_pattern, cardNumberPattern_test. unfold card_number_ok.
  by destruct (String.length s).
Qed.

Lemma passes_expiry (s : string) :
  forallb (passes (VStr s)) [Required; Pattern expiryDatePattern] = expiry_ok s.
Proof.
  rewrite passes_required_pattern, expiryDatePattern_test. unfold expiry_ok.
  rewrite <- length_list_ascii_of_string.
  by destruct (list_ascii_of_string s).
Qed.

Lemma passes_cvv (s : string) :
  forallb (passes (VStr s)) [Required; Pattern cvvPattern] = cvv_ok s.
Proof.
  rewrite passes_required_pattern, cvvPattern_test. unfold cvv_ok.
  by destruct (String.length s).
Qed.

Lemma shape_paymentForm :
  shape (paymentForm init) =
  list_to_map
    [ ("paymentMethod", [Required]);
      ("cardName", [Required; MinLength 5]);
      ("cardNumber", [Required; Pattern cardNumberPattern]);
      ("expiryDate", [Required; Pattern expiryDatePattern]);
      ("cvv", [Required; Pattern cvvPattern]);
      ("billingAddress", []) ].
Proof. vm_compute. reflexivity. Qed.

(** C2, as stated, fails: with "paypal" selected and the card number
    erased the payment form is invalid, and [nextStep] stays on step 3. *)
Lemma paypal_needs_card_fields :
  value <$> get paypal_without_card_number "paymentMethod" = Some (VStr "paypal") /\
  valid paypal_without_card_number = false /\
  currentStep (run [ ClickNext; ClickNext;
                     Edit PaymentForm "paymentMethod" (VStr "paypal");
                     Edit PaymentForm "cardNumber" (VStr "");
                     ClickNext ]) = 3.
Proof. repeat split; vm_compute; reflexivity. Qed.

(** C2, amended - The card-field rules are evaluated whatever payment method
    is selected, "paypal" included: a payment form with the validators of
    [initializeForms], a selected method and strings in the four card fields
    is valid exactly when the name has at least 5 characters, the number is
    16 digits, the expiry date reads MM/YY with a month from 01 to 12, and
    the code is 3 or 4 digits. *)
Theorem payment_valid_whatever_method
    (g : FormGroup) (selected name number expiry cvv : string) :
  shape g = shape (paymentForm init) ->
  value <$> get g "paymentMethod" = Some (VStr selected) ->
  selected <> "" ->
  value <$> get g "cardName" = Some (VStr name) ->
  value <$> get g "cardNumber" = Some (VStr number) ->
  value <$> get g "expiryDate" = Some (VStr expiry) ->
  value <$> get g "cvv" = Some (VStr cvv) ->
  valid g = card_fields_ok name number expiry cvv.
Proof.
  intros Hshape Hm Hsel Hname Hnumber Hexpiry Hcvv.
  assert (field_ok g "billingAddress" []) as Hbilling.
  { apply field_ok_of_shape. rewrite Hshape. vm_compute. reflexivity. }
  rewrite shape_paymentForm in Hshape.
  apply eq_true_iff_eq.
  rewrite (valid_by_shape g _ Hshape eq_refl).
  rewrite !Forall_cons, Forall_nil. cbn [fst snd].
  rewrite (field_ok_value _ _ _ _ Hm), (field_ok_value _ _ _ _ Hname),
    (field_ok_value _ _ _ _ Hnumber), (field_ok_value _ _ _ _ Hexpiry),
    (field_ok_value _ _ _ _ Hcvv).
  rewrite passes_required, passes_card_name, passes_card_number, passes_expiry,
    passes_cvv.
  unfold card_fields_ok. rewrite !andb_true_iff.
  assert (negb (String.length selected =? 0)%nat = true) as ->.
  { destruct selected; [done | reflexivity]. }
  tauto.
Qed.

Lemma payment_valid_whatever_method_witness :
  valid (input "paymentMethod" (VStr "paypal") (paymentForm init)) = true /\
  valid paypal_without_card_number = false.
Proof.
  split.
  - rewrite (payment_valid_whatever_method _ "paypal" "Jean Dupont" "4111111111111111"
               "12/25" "123");
      [vm_compute; reflexivity | vm_compute; reflexivity | vm_compute; reflexivity
      | discriminate | vm_compute; reflexivity | vm_compute; reflexivity
      | vm_compute; reflexivity | vm_compute; reflexivity ].
  - rewrite (payment_valid_whatever_method _ "paypal" "Jean Dupont" "" "12/25" "123");
      [vm_compute; reflexivity | vm_compute; reflexivity | vm_compute; reflexivity
      | discriminate | vm_compute; reflexivity | vm_compute; reflexivity
      | vm_compute; reflexivity | vm_compute; reflexivity ].
Defined.

(* ===================================================================== *)
(** ** Further properties of the checkout component                       *)
(* ===================================================================== *)

(** *** The forms keep their controls and validators *)

Lemma shape_touch (key : string) (g : FormGroup) : shape (touch key g) = shape g.
Proof.
  unfold touch, get. destruct (controls g !! key) as [c|] eqn:Hc; [| done].
  unfold shape. simpl. rewrite fmap_insert. apply insert_id.
  by rewrite lookup_fmap, Hc.
Qed.

Lemma shape_input (key : string) (v : Value) (g : FormGroup) :
  shape (input key v g) = shape g.
Proof.
  unfold input, get. destruct (controls g !! key) as [c|] eqn:Hc; [| done].
  unfold shape. simpl. rewrite fmap_insert. apply insert_id.
  by rewrite lookup_fmap, Hc.
Qed.

Lemma deref_set_currentStep (s : Z) (c : Component) (r : FormRef) :
  deref (set_currentStep s c) r = deref c r.
Proof. by destruct r. Qed.

Lemma deref_set_orderData (o : option OrderData) (c : Component) (r : FormRef) :
  deref (set_orderData o c) r = deref c r.
Proof. by destruct r. Qed.

Lemma shape_deref_assign (r0 r : FormRef) (g : FormGroup) (c : Component) :
  shape g = shape (deref c r0) -> shape (deref (assign r0 g c) r) = shape (deref c r).
Proof.
  intros H. destruct (decide (r0 = r)) as [<- | Hne].
  - by rewrite deref_assign.
  - by rewrite deref_assign_ne.
Qed.

Lemma shape_markFormTouched (form : option FormRef) (c : Component) (r : FormRef) :
  shape (deref (markFormTouched form c) r) = shape (deref c r).
Proof.
  destruct form as [r0|]; [| done]. rewrite markFormTouched_some.
  apply shape_deref_assign, touch_all_shape.
Qed.

Lemma shape_step (c : Component) (e : Event) (r : FormRef) :
  shape (deref (step c e) r) = shape (deref c r).
Proof.
  destruct e; simpl.
  - unfold nextStep. repeat case_match;
      rewrite ?shape_markFormTouched, ?deref_set_currentStep; done.
  - unfold previousStep. case_match; by rewrite ?deref_set_currentStep.
  - unfold placeOrder. case_match; by rewrite ?deref_set_orderData.
  - apply shape_deref_assign, shape_input.
  - apply shape_deref_assign, shape_touch.
Qed.

Lemma shape_run (es : list Event) (r : FormRef) :
  shape (deref (run es) r) = shape (deref init r).
Proof.
  induction es as [|e es IH] using rev_ind; [done |].
  by rewrite run_snoc, shape_step.
Qed.

(** X1 - Whatever the user does, each of the four forms keeps exactly the
    controls and the validators that [initializeForms] gave it: no action
    adds, removes or reconfigures a control. *)
Theorem forms_keep_their_shape (es : list Event) (r : FormRef) :
  shape (deref (run es) r) = shape (deref init r) /\
  dom (controls (deref (run es) r)) = dom (controls (deref init r)).
Proof.
  pose proof (shape_run es r) as H. split; [exact H |].
  apply (f_equal dom) in H. unfold shape in H. by rewrite !dom_fmap_L in H.
Qed.

(** *** One step at a time *)

Lemma nextStep_position (c : Component) :
  (currentStep c < totalSteps c /\ isStepCompleted c (currentStep c) = true /\
   nextStep c = set_currentStep (currentStep c + 1) c) \/
  ((totalSteps c <= currentStep c \/ isStepCompleted c (currentStep c) = false) /\
   currentStep (nextStep c) = currentStep c).
Proof.
  unfold nextStep, isStepCompleted.
  change (getFormAtStep c (currentStep c)) with (getCurrentForm c).
  destruct (getCurrentForm c) as [r|]; [| right; split; [by right | done]].
  destruct (valid (deref c r)).
  - destruct (currentStep c <? totalSteps c) eqn:Hlt.
    + left. apply Z.ltb_lt in Hlt. done.
    + right. apply Z.ltb_ge in Hlt. split; [by left | done].
  - right. split; [by right |]. apply currentStep_markFormTouched.
Qed.

(** X2 - The position moves by at most one step per action: only a click
    on "next" can raise it, only a click on "previous" can lower it, and
    placing an order, editing a field or leaving a field never moves it. *)
Theorem position_moves_one_step (c : Component) (e : Event) :
  currentStep (step c e) = currentStep c \/
  (e = ClickNext /\ currentStep (step c e) = currentStep c + 1) \/
  (e = ClickPrevious /\ currentStep (step c e) = currentStep c - 1).
Proof.
  destruct e; simpl.
  - destruct (nextStep_position c) as [(_ & _ & ->) | [_ H]]; [right; left | left]; done.
  - unfold previousStep. case_match; [right; right | left]; done.
  - left. unfold placeOrder. by case_match.
  - left. apply currentStep_assign.
  - left. apply currentStep_assign.
Qed.

(** X3 - [nextStep] moves forward exactly when the step it is on is
    completed ([isStepCompleted]) and is not the last one. *)
Theorem nextStep_advances_iff_completed (c : Component) :
  currentStep (nextStep c) = currentStep c + 1 <->
  isStepCompleted c (currentStep c) = true /\ currentStep c < totalSteps c.
Proof.
  destruct (nextStep_position c) as [(Hlt & Hc & ->) | [Hno Hs]].
  - simpl. split; [done | lia].
  - rewrite Hs. split; [lia |]. intros [Hc Hlt].
    destruct Hno as [Hno | Hno]; [lia | congruence].
Qed.

(** X4 - Going back undoes going forward: when [nextStep] has moved the
    position, [previousStep] restores the component exactly. *)
Theorem previousStep_undoes_nextStep (c : Component) :
  currentStep (nextStep c) <> currentStep c -> previousStep (nextStep c) = c.
Proof.
  intros Hmoved.
  destruct (nextStep_position c) as [(_ & Hc & E) | [_ Hs]]; [| done].
  assert (1 <= currentStep c) as Hpos.
  { unfold isStepCompleted in Hc.
    destruct (getFormAtStep c (currentStep c)) as [r|] eqn:Hr; [| discriminate Hc].
    by apply (getCurrentForm_range c r). }
  rewrite E. unfold previousStep. simpl.
  assert ((1 <? currentStep c + 1) = true) as -> by (apply Z.ltb_lt; lia).
  destruct c. unfold set_currentStep. simpl in *. f_equal. lia.
Qed.

Lemma previousStep_undoes_nextStep_witness : previousStep (nextStep init) = init.
Proof. apply previousStep_undoes_nextStep. by vm_compute. Defined.

Lemma isStepCompleted_set_currentStep (s : Z) (c : Component) (k : Z) :
  isStepCompleted (set_currentStep s c) k = isStepCompleted c k.
Proof.
  unfold isStepCompleted, getFormAtStep.
  repeat case_match; try done; by rewrite deref_set_currentStep.
Qed.

(** X5 - Going forward undoes going back: from a position above 1 and
    within the steps, when the step before is completed, [previousStep]
    followed by [nextStep] restores the component exactly. *)
Theorem nextStep_undoes_previousStep (c : Component) :
  1 < currentStep c <= totalSteps c ->
  isStepCompleted c (currentStep c - 1) = true ->
  nextStep (previousStep c) = c.
Proof.
  intros [Hlo Hhi] Hc. unfold previousStep.
  assert ((1 <? currentStep c) = true) as -> by (by apply Z.ltb_lt).
  destruct (nextStep_position (set_currentStep (currentStep c - 1) c))
    as [(_ & _ & ->) | [Hno _]].
  - destruct c. unfold set_currentStep. simpl in *. f_equal. lia.
  - exfalso. simpl in Hno. destruct Hno as [Hno | Hno]; [lia |].
    rewrite isStepCompleted_set_currentStep in Hno. congruence.
Qed.

Lemma nextStep_undoes_previousStep_witness :
  nextStep (previousStep (run [ClickNext; ClickNext])) = run [ClickNext; ClickNext].
Proof.
  apply nextStep_undoes_previousStep; [by vm_compute | by vm_compute].
Defined.

(** *** Gating *)

Lemma currentStep_step_cases (c : Component) (e : Event) :
  (e = ClickNext /\ currentStep (step c e) = currentStep c + 1 /\
   isStepCompleted c (currentStep c) = true) \/
  currentStep (step c e) <= currentStep c.
Proof.
  destruct e; simpl.
  - destruct (nextStep_position c) as [(_ & Hc & ->) | [_ ->]]; [left | right]; done.
  - right. unfold previousStep. case_match; simpl; lia.
  - right. unfold placeOrder. by case_match.
  - right. by rewrite currentStep_assign.
  - right. by rewrite currentStep_assign.
Qed.

(** X6 - No step is skipped: in a session that stands beyond the step [k],
    there was a click on "next" made at the step [k] while the form of that
    step was valid. *)
Theorem steps_are_gated (es : list Event) (k : Z) :
  1 <= k < currentStep (run es) ->
  exists es1 es2,
    es = es1 ++ ClickNext :: es2 /\
    currentStep (run es1) = k /\
    isStepCompleted (run es1) k = true.
Proof.
  revert k. induction es as [|e es IH] using rev_ind; intros k Hk.
  - change (currentStep (run [])) with 1 in Hk. lia.
  - rewrite run_snoc in Hk.
    assert (k < currentStep (run es) \/
            (e = ClickNext /\ currentStep (run es) = k /\
             isStepCompleted (run es) k = true)) as [Hlt | (-> & Hs & Hc)].
    { destruct (currentStep_step_cases (run es) e) as [(-> & Hs & Hc) | Hle].
      - destruct (decide (k = currentStep (run es))) as [-> | Hne].
        + right. done.
        + left. lia.
      - left. lia. }
    + destruct (IH k ltac:(lia)) as (es1 & es2 & -> & Hs & Hc).
      exists es1, (es2 ++ [e]). split; [by rewrite <- app_assoc | done].
    + by exists es, [].
Qed.

Lemma steps_are_gated_witness :
  exists es1 es2,
    [ClickNext; ClickNext; ClickNext] = es1 ++ ClickNext :: es2 /\
    currentStep (run es1) = 3 /\ isStepCompleted (run es1) 3 = true.
Proof.
  apply (steps_are_gated [ClickNext; ClickNext; ClickNext] 3).
  assert (currentStep (run [ClickNext; ClickNext; ClickNext]) = 4) as ->
    by (vm_compute; reflexivity).
  lia.
Defined.

(** *** A refused [nextStep] *)

Lemma control_valid_markAsTouched (c : FormControl) :
  control_valid (markAsTouched c) = control_valid c.
Proof. done. Qed.

Lemma valid_touch_all (g : FormGroup) : valid (touch_all g) = valid g.
Proof.
  apply eq_true_iff_eq. rewrite !valid_lookup. unfold get, touch_all. simpl. split.
  - intros H key c Hc. rewrite <- control_valid_markAsTouched.
    apply (H key). rewrite lookup_fmap, Hc. done.
  - intros H key c Hc. rewrite lookup_fmap in Hc.
    destruct (controls g !! key) as [c'|] eqn:Hc'; simpl in Hc; [| discriminate Hc].
    injection Hc as <-. rewrite control_valid_markAsTouched. by apply (H key).
Qed.

Lemma markFormTouched_twice (r : FormRef) (c : Component) :
  markFormTouched (Some r) (markFormTouched (Some r) c) = markFormTouched (Some r) c.
Proof.
  rewrite !markFormTouched_some. by rewrite deref_assign, touch_all_idem, assign_assign.
Qed.

Lemma refused_nextStep_stable_at (c : Component) (r : FormRef) :
  getCurrentForm c = Some r -> valid (deref c r) = false ->
  valid (deref (nextStep c) r) = false /\
  group_value (deref (nextStep c) r) = group_value (deref c r) /\
  nextStep (nextStep c) = nextStep c.
Proof.
  intros Hr Hv.
  assert (nextStep c = markFormTouched (Some r) c) as E.
  { unfold nextStep. by rewrite Hr, Hv. }
  assert (valid (deref (markFormTouched (Some r) c) r) = false) as Hv'.
  { by rewrite markFormTouched_some, deref_assign, valid_touch_all. }
  rewrite E. split; [exact Hv' |]. split.
  - by rewrite markFormTouched_some, deref_assign, touch_all_value.
  - unfold nextStep at 1.
    assert (getCurrentForm (markFormTouched (Some r) c) = Some r) as ->.
    { unfold getCurrentForm in *. by rewrite currentStep_markFormTouched. }
    rewrite Hv'. apply markFormTouched_twice.
Qed.

(** X7 - A refused [nextStep] is stable: in a session, when the current
    form is invalid, [nextStep] leaves it invalid with the same values, and
    a second [nextStep] changes nothing more. *)
Theorem refused_nextStep_is_stable (es : list Event) (r : FormRef) :
  getCurrentForm (run es) = Some r -> valid (deref (run es) r) = false ->
  valid (deref (nextStep (run es)) r) = false /\
  group_value (deref (nextStep (run es)) r) = group_value (deref (run es) r) /\
  nextStep (nextStep (run es)) = nextStep (run es).
Proof. apply refused_nextStep_stable_at. Qed.

Lemma refused_nextStep_is_stable_witness :
  nextStep (nextStep (run [ClickNext; ClickNext; ClickNext])) =
  nextStep (run [ClickNext; ClickNext; ClickNext]).
Proof.
  apply (refused_nextStep_is_stable [ClickNext; ClickNext; ClickNext] ConfirmationForm);
    by vm_compute.
Defined.

(** *** [getStepLabel] *)

(** X8 - A step has a label exactly when it has a form: [getStepLabel]
    is non-empty for the steps 1 to 4 and empty for every other integer,
    which are the steps for which [getFormAtStep] returns a form. *)
Theorem getStepLabel_iff_form (c : Component) (s : Z) :
  (getStepLabel s <> "" <-> 1 <= s <= 4) /\
  (getStepLabel s <> "" <-> getFormAtStep c s <> None).
Proof.
  assert (s < 1 \/ s = 1 \/ s = 2 \/ s = 3 \/ s = 4 \/ 4 < s) as Hs by lia.
  destruct Hs as [Hs | [-> | [-> | [-> | [-> | Hs]]]]];
    try (split; split; [lia | done | done | done]).
  - assert (getStepLabel s = "") as ->.
    { unfold getStepLabel. by assert ((0 <=? s - 1) = false) as -> by lia. }
    assert (getFormAtStep c s = None) as ->.
    { unfold getFormAtStep. repeat case_match; try done; lia. }
    split; split; try done; lia.
  - assert (getStepLabel s = "") as ->.
    { unfold getStepLabel. assert ((0 <=? s - 1) = true) as -> by lia.
      rewrite lookup_ge_None_2; [done |]. simpl. lia. }
    assert (getFormAtStep c s = None) as ->.
    { unfold getFormAtStep. repeat case_match; try done; lia. }
    split; split; try done; lia.
Qed.

(** *** [getErrorMessage] *)

Lemma failing_cons (v : Value) (f : Validator) (l : list Validator) :
  filter (fun f => passes v f = false) (f :: l) =
  if passes v f then filter (fun f => passes v f = false) l
  else f :: filter (fun f => passes v f = false) l.
Proof.
  rewrite filter_cons. destruct (passes v f); by case_decide.
Qed.

Lemma errors_nil (c : FormControl) : errors c = [] <-> control_valid c = true.
Proof.
  unfold errors, control_valid. induction (validators c) as [|f l IH]; [done |].
  rewrite failing_cons. simpl. destruct (passes (value c) f); simpl; [exact IH |].
  split; discriminate.
Qed.

Lemma no_requiredTrue_key (l : list Validator) :
  existsb (fun f => String.eqb (error_key f) "requiredTrue") l = false.
Proof. induction l as [|[] l IH]; simpl; done. Qed.

Lemma some_known_key (l : list Validator) :
  l <> [] ->
  existsb (fun f => String.eqb (error_key f) "required") l = true \/
  is_Some (last (omap (fun f => match f with MinLength n => Some n | _ => None end) l)) \/
  existsb (fun f => String.eqb (error_key f) "email") l = true \/
  existsb (fun f => String.eqb (error_key f) "pattern") l = true.
Proof.
  destruct l as [|f l]; [done | intros _].
  destruct f; simpl; auto.
  right. left. rewrite last_cons. by case_match.
Qed.

(** The message for a control, as [getErrorMessage] composes it. *)
Lemma getErrorMessage_control (fieldName : string) (c : Component) (r : FormRef)
    (control : FormControl) :
  getCurrentForm c = Some r -> get (deref c r) fieldName = Some control ->
  getErrorMessage fieldName c =
  match errors control with
  | [] => ""
  | _ =>
      if hasError "required" control then "Ce champ est requis"
      else
        match requiredLength control with
        | Some minLength =>
            "Minimum " +:+ JsNumber.digits (Z.of_nat minLength) +:+ " caractères requis"
        | None =>
            if hasError "email" control then "Email invalide"
            else if hasError "pattern" control then "Format invalide"
            else "Erreur de validation"
        end
  end.
Proof.
  intros Hr Hc. unfold getErrorMessage. rewrite Hr. simpl. rewrite Hc.
  unfold hasError at 4. by rewrite no_requiredTrue_key.
Qed.

Lemma getErrorMessage_no_control (fieldName : string) (c : Component) :
  (forall r, getCurrentForm c = Some r -> get (deref c r) fieldName = None) ->
  getErrorMessage fieldName c = "".
Proof.
  intros H. unfold getErrorMessage. destruct (getCurrentForm c) as [r|]; [| done].
  simpl. by rewrite (H r eq_refl).
Qed.

Lemma getErrorMessage_empty_iff_at (fieldName : string) (c : Component) :
  getErrorMessage fieldName c = "" <->
  forall r control, getCurrentForm c = Some r ->
    get (deref c r) fieldName = Some control -> control_valid control = true.
Proof.
  destruct (getCurrentForm c) as [r|] eqn:Hr.
  - destruct (get (deref c r) fieldName) as [control|] eqn:Hc.
    + rewrite (getErrorMessage_control _ _ _ _ Hr Hc). split.
      * intros H r' control' [= <-] Hc'. rewrite Hc in Hc'. injection Hc' as <-.
        apply errors_nil. destruct (errors control); [done |]. exfalso.
        repeat case_match; discriminate H.
      * intros H. specialize (H r control eq_refl Hc). apply errors_nil in H.
        by rewrite H.
    + split; [| intros _; apply getErrorMessage_no_control; intros r' Hr'; congruence].
      intros _ r' control [= <-] Hc'. congruence.
  - split; [by intros _ r control [=] |].
    intros _. apply getErrorMessage_no_control. intros r Hr'. congruence.
Qed.

(** X9 - In every state of a session, [getErrorMessage] returns the empty
    string exactly when there is nothing to report: the current form has no
    control of that name, or the control is valid. *)
Theorem getErrorMessage_empty_iff (fieldName : string) (es : list Event) :
  getErrorMessage fieldName (run es) = "" <->
  forall r control, getCurrentForm (run es) = Some r ->
    get (deref (run es) r) fieldName = Some control -> control_valid control = true.
Proof. apply getErrorMessage_empty_iff_at. Qed.

Lemma getErrorMessage_unused_messages_at (fieldName : string) (c : Component) :
  getErrorMessage fieldName c <> "Vous devez accepter cette condition" /\
  getErrorMessage fieldName c <> "Erreur de validation" /\
  (forall r control, getCurrentForm c = Some r ->
     get (deref c r) fieldName = Some control ->
     validators control = [RequiredTrue] -> value control <> VBool true ->
     getErrorMessage fieldName c = "Ce champ est requis").
Proof.
  assert (forall r control, getCurrentForm c = Some r ->
            get (deref c r) fieldName = Some control ->
            getErrorMessage fieldName c <> "Vous devez accepter cette condition" /\
            getErrorMessage fieldName c <> "Erreur de validation") as Hcontrol.
  { intros r control Hr Hc. rewrite (getErrorMessage_control _ _ _ _ Hr Hc).
    destruct (errors control) as [|f l] eqn:He; [split; discriminate |].
    destruct (some_known_key (f :: l) ltac:(done)) as [H | [[n H] | [H | H]]];
      rewrite <- He in H; fold (hasError "required" control) in H;
      fold (requiredLength control) in H; fold (hasError "email" control) in H;
      fold (hasError "pattern" control) in H.
    - rewrite H. split; discriminate.
    - rewrite H. destruct (hasError "required" control); split; discriminate.
    - rewrite H. destruct (hasError "required" control), (requiredLength control);
        split; discriminate.
    - rewrite H. destruct (hasError "required" control), (requiredLength control),
        (hasError "email" control); split; discriminate. }
  assert (getErrorMessage fieldName c <> "Vous devez accepter cette condition" /\
          getErrorMessage fieldName c <> "Erreur de validation") as [H1 H2].
  { destruct (getCurrentForm c) as [r|] eqn:Hr.
    - destruct (get (deref c r) fieldName) as [control|] eqn:Hc; [by eapply Hcontrol |].
      rewrite getErrorMessage_no_control; [split; discriminate |].
      intros r' Hr'. congruence.
    - rewrite getErrorMessage_no_control; [split; discriminate |].
      intros r Hr'. congruence. }
  split; [exact H1 |]. split; [exact H2 |].
  intros r control Hr Hc Hv Hval. rewrite (getErrorMessage_control _ _ _ _ Hr Hc).
  unfold errors, hasError, errors. rewrite Hv, failing_cons.
  destruct (value control) as [|[]| |]; simpl; done.
Qed.

(** X10 - Two of the six messages of [getErrorMessage] are never shown in
    a session: a failing [requiredTrue] reports under the key [required],
    so an unticked box is answered with "Ce champ est requis", never with
    "Vous devez accepter cette condition"; and every error of the validators
    in use has one of the keys tested before the fallback "Erreur de
    validation". *)
Theorem getErrorMessage_unused_messages (fieldName : string) (es : list Event) :
  getErrorMessage fieldName (run es) <> "Vous devez accepter cette condition" /\
  getErrorMessage fieldName (run es) <> "Erreur de validation" /\
  (forall r control, getCurrentForm (run es) = Some r ->
     get (deref (run es) r) fieldName = Some control ->
     validators control = [RequiredTrue] -> value control <> VBool true ->
     getErrorMessage fieldName (run es) = "Ce champ est requis").
Proof. apply getErrorMessage_unused_messages_at. Qed.

Lemma getErrorMessage_text_control_at
    (fieldName : string) (c : Component) (r : FormRef) (control : FormControl)
    (s : string) :
  getCurrentForm c = Some r ->
  get (deref c r) fieldName = Some control ->
  value control = VStr s ->
  (validators control = [Required] ->
     getErrorMessage fieldName c =
     if (String.length s =? 0)%nat then "Ce champ est requis" else "") /\
  (forall n, validators control = [Required; MinLength n] ->
     getErrorMessage fieldName c =
     if (String.length s =? 0)%nat then "Ce champ est requis"
     else if (String.length s <? n)%nat
          then "Minimum " +:+ JsNumber.digits (Z.of_nat n) +:+ " caractères requis"
     else "") /\
  (forall re, validators control = [Required; Pattern re] ->
     getErrorMessage fieldName c =
     if (String.length s =? 0)%nat then "Ce champ est requis"
     else if Regex.test re s then "" else "Format invalide") /\
  (validators control = [Required; Email] ->
     getErrorMessage fieldName c =
     if (String.length s =? 0)%nat then "Ce champ est requis"
     else if email_test s then "" else "Email invalide").
Proof.
  intros Hr Hc Hs. rewrite (getErrorMessage_control _ _ _ _ Hr Hc).
  unfold hasError, requiredLength, errors. rewrite Hs.
  split; [| split; [| split]].
  - intros ->. rewrite !failing_cons. simpl.
    by destruct (String.length s).
  - intros n ->. rewrite !failing_cons. simpl.
    destruct (String.length s) as [|k] eqn:Hk; simpl; [done |].
    rewrite (Nat.ltb_antisym n (S k)). by destruct (n <=? S k)%nat.
  - intros re ->. rewrite !failing_cons. simpl.
    destruct (String.length s) as [|k] eqn:Hk; simpl; [done |].
    by destruct (Regex.test re s).
  - intros ->. rewrite !failing_cons. simpl.
    destruct (String.length s) as [|k] eqn:Hk; simpl; [done |].
    by destruct (email_test s).
Qed.

(** X11 - What [getErrorMessage] answers in a session for a text control of
    the current form, by its validators: an empty text is reported as
    required; a shorter text than the minimum is answered with the
    configured minimum; a text that fails the pattern or is no e-mail
    address is reported as such; anything else gives no message.  Being
    required is tested first, and the other validators do not fail on an
    empty text. *)
Theorem getErrorMessage_text_control
    (fieldName : string) (es : list Event) (r : FormRef) (control : FormControl)
    (s : string) :
  getCurrentForm (run es) = Some r ->
  get (deref (run es) r) fieldName = Some control ->
  value control = VStr s ->
  (validators control = [Required] ->
     getErrorMessage fieldName (run es) =
     if (String.length s =? 0)%nat then "Ce champ est requis" else "") /\
  (forall n, validators control = [Required; MinLength n] ->
     getErrorMessage fieldName (run es) =
     if (String.length s =? 0)%nat then "Ce champ est requis"
     else if (String.length s <? n)%nat
          then "Minimum " +:+ JsNumber.digits (Z.of_nat n) +:+ " caractères requis"
     else "") /\
  (forall re, validators control = [Required; Pattern re] ->
     getErrorMessage fieldName (run es) =
     if (String.length s =? 0)%nat then "Ce champ est requis"
     else if Regex.test re s then "" else "Format invalide") /\
  (validators control = [Required; Email] ->
     getErrorMessage fieldName (run es) =
     if (String.length s =? 0)%nat then "Ce champ est requis"
     else if email_test s then "" else "Email invalide").
Proof. apply getErrorMessage_text_control_at. Qed.

Lemma getErrorMessage_text_control_witness :
  getErrorMessage "postalCode"
    (run [ClickNext; Edit ShippingForm "postalCode" (VStr "7500")])
  = "Format invalide" /\
  getErrorMessage "firstName"
    (run [ClickNext; Edit ShippingForm "firstName" (VStr "J")])
  = "Minimum 2 caractères requis".
Proof.
  split.
  - destruct (getErrorMessage_text_control "postalCode"
                [ClickNext; Edit ShippingForm "postalCode" (VStr "7500")]
                ShippingForm
                (mkControl (VStr "7500") [Required; Pattern postalCodePattern] false true)
                "7500") as (_ & _ & H & _);
      [by vm_compute | by vm_compute | done |].
    rewrite (H postalCodePattern eq_refl). by vm_compute.
  - destruct (getErrorMessage_text_control "firstName"
                [ClickNext; Edit ShippingForm "firstName" (VStr "J")]
                ShippingForm
                (mkControl (VStr "J") [Required; MinLength 2] false true)
                "J") as (_ & H & _);
      [by vm_compute | by vm_compute | done |].
    rewrite (H 2%nat eq_refl). by vm_compute.
Defined.

(** *** [getTotals] reads one control *)

Lemma getTotals_inputs (c c' : Component) :
  cartItems c' = cartItems c -> shippingMethods c' = shippingMethods c ->
  taxRate c' = taxRate c ->
  value <$> get (cartForm c') "shippingMethod" = value <$> get (cartForm c) "shippingMethod" ->
  getTotals c' = getTotals c.
Proof. intros H1 H2 H3 H4. unfold getTotals. by rewrite H1, H2, H3, H4. Qed.

Lemma value_get_touch (key key' : string) (g : FormGroup) :
  value <$> get (touch key g) key' = value <$> get g key'.
Proof.
  unfold touch, get. destruct (controls g !! key) as [c|] eqn:Hc; [| done]. simpl.
  destruct (decide (key = key')) as [<- | Hne].
  - by rewrite lookup_insert_eq, Hc.
  - by rewrite lookup_insert_ne.
Qed.

Lemma value_get_input_ne (key key' : string) (v : Value) (g : FormGroup) :
  key <> key' -> value <$> get (input key v g) key' = value <$> get g key'.
Proof.
  intros Hne. unfold input, get. destruct (controls g !! key) as [c|]; [| done]. simpl.
  by rewrite lookup_insert_ne.
Qed.

Lemma value_get_touch_all (key : string) (g : FormGroup) :
  value <$> get (touch_all g) key = value <$> get g key.
Proof.
  unfold touch_all, get. simpl. rewrite lookup_fmap.
  by destruct (controls g !! key).
Qed.

Lemma config_assign (r : FormRef) (g : FormGroup) (c : Component) :
  cartItems (assign r g c) = cartItems c /\
  shippingMethods (assign r g c) = shippingMethods c /\
  taxRate (assign r g c) = taxRate c.
Proof. by destruct r. Qed.

Lemma getTotals_assign (r : FormRef) (g : FormGroup) (c : Component) :
  (r = CartForm ->
   value <$> get g "shippingMethod" = value <$> get (cartForm c) "shippingMethod") ->
  getTotals (assign r g c) = getTotals c.
Proof.
  intros H. destruct (config_assign r g c) as (H1 & H2 & H3).
  apply getTotals_inputs; try done.
  destruct r; try done. by apply H.
Qed.

(** X12 - The totals depend on the form through the [shippingMethod]
    control alone: no action other than editing that control changes what
    [getTotals] returns; in particular the [items] control of the cart form
    is not read. *)
Theorem getTotals_reads_shipping_method_only (c : Component) (e : Event) :
  (forall v, e <> Edit CartForm "shippingMethod" v) ->
  getTotals (step c e) = getTotals c.
Proof.
  intros He. destruct e as [| | now today | r key v | r key]; simpl.
  - unfold nextStep. repeat case_match; try done;
      rewrite markFormTouched_some; apply getTotals_assign;
      intros ->; apply value_get_touch_all.
  - unfold previousStep. by case_match.
  - unfold placeOrder. by case_match.
  - apply getTotals_assign. intros ->. apply value_get_input_ne.
    intros ->. by apply (He v).
  - apply getTotals_assign. intros ->. apply value_get_touch.
Qed.

Lemma getTotals_reads_shipping_method_only_witness :
  getTotals (step init (Edit CartForm "items" (VItems []))) = getTotals init.
Proof. apply getTotals_reads_shipping_method_only. intros v. discriminate. Defined.

(** *** The order that is kept *)

(** X13 - The order data is a snapshot: in every state a session reaches,
    the order data is what [placeOrder] composed, from the forms and totals
    of that moment, at an earlier click made while the confirmation form was
    valid; what the user did afterwards has not altered it. *)
Theorem orderData_is_a_snapshot (es : list Event) (o : OrderData) :
  orderData (run es) = Some o ->
  exists es1 now today es2,
    es = es1 ++ ClickPlaceOrder now today :: es2 /\
    valid (confirmationForm (run es1)) = true /\
    o = newOrder now today (run es1).
Proof.
  induction es as [|e es IH] using rev_ind; [discriminate |].
  rewrite run_snoc, orderData_step. intros H.
  assert (orderData (run es) = Some o \/
          exists now today, e = ClickPlaceOrder now today /\
            valid (confirmationForm (run es)) = true /\
            o = newOrder now today (run es)) as [Ho | (now & today & -> & Hv & ->)].
  { destruct e as [| | now today | |]; try (by left).
    destruct (valid (confirmationForm (run es))) eqn:Hv; [| by left].
    right. injection H as <-. eauto. }
  - destruct (IH Ho) as (es1 & now & today & es2 & -> & Hv & ->).
    exists es1, now, today, (es2 ++ [e]). by rewrite <- app_assoc.
  - by exists es, now, today, [].
Qed.

Lemma orderData_is_a_snapshot_witness :
  exists es1 now today es2,
    ready_to_order ++ [ClickPlaceOrder 1700000000000 "02/11/2026";
                       Edit PaymentForm "cardName" (VStr "Marie Curie")]
    = es1 ++ ClickPlaceOrder now today :: es2 /\
    valid (confirmationForm (run es1)) = true /\
    newOrder 1700000000000 "02/11/2026" (run ready_to_order) = newOrder now today (run es1).
Proof.
  apply orderData_is_a_snapshot. vm_compute. reflexivity.
Defined.

(** *** Order numbers *)

Lemma digits_first_char (d : Decimal.uint) :
  exists c rest, NilZero.string_of_uint d = String c rest /\ c <> "-"%char.
Proof. destruct d; simpl; eexists _, _; (split; [reflexivity | discriminate]). Qed.

Lemma digits_inj (a b : Z) : 0 <= a -> 0 <= b -> JsNumber.digits a = JsNumber.digits b -> a = b.
Proof.
  intros Ha Hb H. unfold JsNumber.digits in H.
  assert (forall n, N.to_uint n <> Decimal.Nil) as Hnil.
  { intros [|p]; [discriminate | apply DecimalPos.Unsigned.to_uint_nonnil]. }
  apply (f_equal NilZero.uint_of_string) in H.
  rewrite !NilZero.usu in H by apply Hnil.
  injection H as H. apply DecimalN.Unsigned.to_uint_inj in H. lia.
Qed.

Lemma int_to_string_inj (a b : Z) :
  JsNumber.int_to_string a = JsNumber.int_to_string b -> a = b.
Proof.
  unfold JsNumber.int_to_string.
  destruct (a <? 0) eqn:Ha, (b <? 0) eqn:Hb;
    try apply Z.ltb_lt in Ha; try apply Z.ltb_lt in Hb;
    try apply Z.ltb_ge in Ha; try apply Z.ltb_ge in Hb; intros H.
  - injection H as H. apply digits_inj in H; lia.
  - exfalso. unfold JsNumber.digits in H.
    destruct (digits_first_char (N.to_uint (Z.to_N b))) as (c & rest & E & Hc).
    rewrite E in H. injection H as H _. congruence.
  - exfalso. unfold JsNumber.digits in H.
    destruct (digits_first_char (N.to_uint (Z.to_N a))) as (c & rest & E & Hc).
    rewrite E in H. injection H as H _. congruence.
  - by apply digits_inj.
Qed.

(** X14 - The order number identifies the time of the order: two orders
    carry the same number exactly when they were placed at the same
    [Date.now()].  Orders placed within one millisecond share their number. *)
Theorem orderNumber_identifies_time
    (now1 now2 : Z) (today1 today2 : string) (c1 c2 : Component) :
  orderNumber (newOrder now1 today1 c1) = orderNumber (newOrder now2 today2 c2)
  <-> now1 = now2.
Proof.
  simpl. split; [| by intros ->].
  intros H. injection H as H. by apply int_to_string_inj.
Qed.

(** *** The cart step and the shipping step *)

Lemma shape_cartForm :
  shape (cartForm init) = list_to_map [("items", []); ("shippingMethod", [Required])].
Proof. vm_compute. reflexivity. Qed.

(** X15 - The cart step asks for a shipping method and nothing more: a
    cart form with the validators of [initializeForms] is valid exactly when
    the [shippingMethod] control holds something other than [null] and the
    empty string, whether or not it names a listed method; the [items]
    control is not validated. *)
Theorem cart_step_valid (g : FormGroup) (v : Value) :
  shape g = shape (cartForm init) ->
  value <$> get g "shippingMethod" = Some v ->
  valid g = negb (isEmptyInputValue v).
Proof.
  intros Hshape Hv.
  assert (field_ok g "items" []) as Hitems.
  { apply field_ok_of_shape. rewrite Hshape. vm_compute. reflexivity. }
  rewrite shape_cartForm in Hshape. apply eq_true_iff_eq.
  rewrite (valid_by_shape g _ Hshape eq_refl).
  rewrite !Forall_cons, Forall_nil. cbn [fst snd].
  rewrite (field_ok_value _ _ _ _ Hv). simpl. rewrite andb_true_r. tauto.
Qed.

Lemma cart_step_valid_witness :
  valid (input "shippingMethod" (VStr "pickup") (cartForm init)) = true /\
  valid (input "shippingMethod" VNull (cartForm init)) = false.
Proof.
  split.
  - rewrite (cart_step_valid _ (VStr "pickup")); by vm_compute.
  - rewrite (cart_step_valid _ VNull); by vm_compute.
Defined.

Lemma lang_star_cls (cs : Regex.cclass) (w : list ascii) :
  Regex.lang (Regex.Star (Regex.Cls cs)) w <->
  forallb (fun c => Regex.in_class c cs) w = true.
Proof.
  split.
  - intros H. remember (Regex.Star (Regex.Cls cs)) as r eqn:Er.
    induction H as [| | | | | |r0 w1 w2 H1 _ H2 IH2]; try discriminate; [done |].
    injection Er as ->. apply lang_cls_iff in H1 as (c & -> & Hc). simpl.
    by rewrite Hc, IH2.
  - induction w as [|c w IH]; simpl; [intros _; constructor |].
    intros H. apply andb_true_iff in H as [Hc H].
    change (c :: w) with ([c] ++ w). constructor; [by constructor | by apply IH].
Qed.

Lemma lang_plus_cls (cs : Regex.cclass) (w : list ascii) :
  Regex.lang (Regex.Plus (Regex.Cls cs)) w <->
  w <> [] /\ forallb (fun c => Regex.in_class c cs) w = true.
Proof.
  unfold Regex.Plus. rewrite lang_cls_cat. split.
  - intros (c & w' & -> & Hc & H). apply lang_star_cls in H. simpl.
    by rewrite Hc, H.
  - intros [Hne H]. destruct w as [|c w']; [done |]. simpl in H.
    apply andb_true_iff in H as [Hc H]. exists c, w'.
    split; [done |]. split; [done |]. by apply lang_star_cls.
Qed.

Lemma lang_phone_chars (w : list ascii) :
  Regex.lang
    (Regex.Plus (Regex.Cls ([("0", "9")]%char ++ whitespace ++ singles "-()"))) w <->
  w <> [] /\ forallb phone_char w = true.
Proof. apply lang_plus_cls. Qed.

Lemma phonePattern_test (s : string) : Regex.test phonePattern s = phone_ok s.
Proof.
  apply eq_true_iff_eq. rewrite test_lang. unfold phonePattern, phone_ok, Regex.Chr.
  rewrite lang_cat_iff.
  assert (phone_char "+" = false) as Hplus by (vm_compute; reflexivity).
  split.
  - intros (w1 & w2 & -> & H1 & H2).
    apply lang_phone_chars in H2 as [Hne H2].
    apply lang_opt in H1 as [-> | H1].
    + simpl. destruct w2 as [|c w2]; [done |].
      destruct (Ascii.eqb_spec c "+") as [-> | Hc]; simpl; [| done].
      simpl in H2. rewrite ?Hplus in H2. discriminate H2.
    + apply lang_cls_iff in H1 as (c & -> & Hc).
      apply in_class_range in Hc.
      assert (c = "+"%char) as -> by (apply ascii_code_inj; lia).
      simpl. destruct w2 as [|c w2]; [done |]. done.
  - destruct (list_ascii_of_string s) as [|c rest]; [discriminate |].
    destruct (Ascii.eqb_spec c "+") as [-> | Hc]; simpl.
    + destruct rest as [|c' rest]; simpl.
      * rewrite ?Hplus. discriminate.
      * intros H. exists ["+"%char], (c' :: rest). split; [done |]. split.
        -- apply lang_opt. right. apply lang_cls_iff. by exists "+"%char.
        -- apply lang_phone_chars. split; [done | exact H].
    + intros H. exists [], (c :: rest). split; [done |]. split.
      * apply lang_opt. by left.
      * apply lang_phone_chars. split; [done | exact H].
Qed.

Lemma postalCodePattern_test (s : string) :
  Regex.test postalCodePattern s = postal_code_ok s.
Proof.
  apply eq_true_iff_eq. rewrite test_lang. unfold postalCodePattern, digit.
  rewrite lang_rep_cls, forallb_digit, length_list_ascii_of_string.
  unfold postal_code_ok, all_digits. rewrite andb_true_iff, Nat.eqb_eq. done.
Qed.

Lemma passes_at_least (n : nat) (s : string) :
  forallb (passes (VStr s)) [Required; MinLength n] = at_least n s.
Proof. unfold at_least. simpl. rewrite andb_true_r. by destruct (String.length s). Qed.

Lemma passes_email (s : string) :
  forallb (passes (VStr s)) [Required; Email] = email_test s.
Proof. simpl. rewrite andb_true_r. by destruct s. Qed.

Lemma passes_phone (s : string) :
  forallb (passes (VStr s)) [Required; Pattern phonePattern] = phone_ok s.
Proof.
  rewrite passes_required_pattern, phonePattern_test. by destruct s.
Qed.

Lemma passes_postal_code (s : string) :
  forallb (passes (VStr s)) [Required; Pattern postalCodePattern] = postal_code_ok s.
Proof.
  rewrite passes_required_pattern, postalCodePattern_test. by destruct s.
Qed.

Lemma shape_shippingForm :
  shape (shippingForm init) =
  list_to_map
    [ ("firstName", [Required; MinLength 2]);
      ("lastName", [Required; MinLength 2]);
      ("email", [Required; Email]);
      ("phone", [Required; Pattern phonePattern]);
      ("address", [Required; MinLength 5]);
      ("city", [Required; MinLength 2]);
      ("postalCode", [Required; Pattern postalCodePattern]);
      ("country", [Required]) ].
Proof. vm_compute. reflexivity. Qed.

(** X16 - The shipping step: a shipping form with the validators of
    [initializeForms] and a string in each control is valid exactly when the
    first name, the last name and the city have at least 2 characters, the
    address at least 5, the e-mail address is accepted by the e-mail
    validator, the phone number is an optional [+] followed by one or more
    digits, white spaces, hyphens or parentheses, the postal code is exactly
    5 digits, and a country is chosen. *)
Theorem shipping_step_valid
    (g : FormGroup) (firstName lastName email phone address city postalCode country : string) :
  shape g = shape (shippingForm init) ->
  value <$> get g "firstName" = Some (VStr firstName) ->
  value <$> get g "lastName" = Some (VStr lastName) ->
  value <$> get g "email" = Some (VStr email) ->
  value <$> get g "phone" = Some (VStr phone) ->
  value <$> get g "address" = Some (VStr address) ->
  value <$> get g "city" = Some (VStr city) ->
  value <$> get g "postalCode" = Some (VStr postalCode) ->
  value <$> get g "country" = Some (VStr country) ->
  valid g =
  at_least 2 firstName && at_least 2 lastName && email_test email && phone_ok phone
  && at_least 5 address && at_least 2 city && postal_code_ok postalCode
  && negb (String.length country =? 0)%nat.
Proof.
  intros Hshape H1 H2 H3 H4 H5 H6 H7 H8.
  rewrite shape_shippingForm in Hshape. apply eq_true_iff_eq.
  rewrite (valid_by_shape g _ Hshape eq_refl).
  rewrite !Forall_cons, Forall_nil. cbn [fst snd].
  rewrite (field_ok_value _ _ _ _ H1), (field_ok_value _ _ _ _ H2),
    (field_ok_value _ _ _ _ H3), (field_ok_value _ _ _ _ H4),
    (field_ok_value _ _ _ _ H5), (field_ok_value _ _ _ _ H6),
    (field_ok_value _ _ _ _ H7), (field_ok_value _ _ _ _ H8).
  rewrite !passes_at_least, passes_email, passes_phone, passes_postal_code,
    passes_required.
  rewrite !andb_true_iff. tauto.
Qed.

Lemma shipping_step_valid_witness :
  valid (shippingForm init) = true /\
  valid (input "postalCode" (VStr "7500") (shippingForm init)) = false.
Proof.
  split.
  - rewrite (shipping_step_valid _ "Jean" "Dupont" "jean.dupont@example.com"
               "+33 6 12 34 56 78" "123 Rue de Paris" "Paris" "75001" "FR"); by vm_compute.
  - rewrite (shipping_step_valid _ "Jean" "Dupont" "jean.dupont@example.com"
               "+33 6 12 34 56 78" "123 Rue de Paris" "Paris" "7500" "FR"); by vm_compute.
Defined.

(* ===================================================================== *)
(** ** Properties of [TemplateFormIntro]                                  *)
(* ===================================================================== *)

(** X17 - [onSubmit] of the template-driven form: the data is recorded and
    the error cleared exactly when the form is valid and the two passwords
    are the same; otherwise an error is set, the one about the passwords
    whenever they differ (even if the form has other errors), and the data
    recorded by an earlier submit is kept as it was. *)
Theorem template_onSubmit_outcome (formValid : bool) (c : TemplateForm.Component) :
  TemplateForm.submitted (TemplateForm.onSubmit formValid c) = true /\
  TemplateForm.formData (TemplateForm.onSubmit formValid c) = TemplateForm.formData c /\
  (TemplateForm.submitError (TemplateForm.onSubmit formValid c) = None <->
   formValid = true /\ TemplateForm.passwordsMatch c = true) /\
  (TemplateForm.submitError (TemplateForm.onSubmit formValid c) = None ->
   TemplateForm.submittedData (TemplateForm.onSubmit formValid c)
   = Some (TemplateForm.formData c)) /\
  (TemplateForm.submitError (TemplateForm.onSubmit formValid c) <> None ->
   TemplateForm.submittedData (TemplateForm.onSubmit formValid c)
   = TemplateForm.submittedData c) /\
  (TemplateForm.passwordsMatch c = false ->
   TemplateForm.submitError (TemplateForm.onSubmit formValid c)
   = Some "Les mots de passe ne correspondent pas").
Proof.
  unfold TemplateForm.onSubmit.
  destruct formValid, (TemplateForm.passwordsMatch c); simpl;
    repeat split; try done; intros []; done.
Qed.

Lemma template_run_snoc (es : list TemplateForm.Event) (e : TemplateForm.Event) :
  TemplateForm.run (es ++ [e]) = TemplateForm.step (TemplateForm.run es) e.
Proof. unfold TemplateForm.run. by rewrite fold_left_app. Qed.

(** X18 - In every state a session of the template-driven form reaches,
    recorded data has two equal passwords and the [submitted] flag is set:
    nothing but a submit that passed the password check records data, and
    only [resetForm], which clears the data, lowers the flag. *)
Theorem template_submittedData_invariant
    (es : list TemplateForm.Event) (d : TemplateForm.FormData) :
  TemplateForm.submittedData (TemplateForm.run es) = Some d ->
  TemplateForm.password (TemplateForm.passwords d)
  = TemplateForm.confirmPassword (TemplateForm.passwords d) /\
  TemplateForm.submitted (TemplateForm.run es) = true.
Proof.
  revert d. induction es as [|e es IH] using rev_ind; intros d; [discriminate |].
  rewrite template_run_snoc.
  destruct e as [d' | formValid | | |]; simpl; try apply IH; try discriminate.
  unfold TemplateForm.onSubmit.
  destruct (formValid && TemplateForm.passwordsMatch (TemplateForm.run es)) eqn:E; simpl.
  - intros [= <-]. apply andb_true_iff in E as [_ E].
    unfold TemplateForm.passwordsMatch in E. by apply String.eqb_eq in E.
  - destruct (negb (TemplateForm.passwordsMatch (TemplateForm.run es))); simpl;
      intros H; by destruct (IH d H).
Qed.

Lemma template_submittedData_invariant_witness :
  TemplateForm.password (TemplateForm.passwords
    (TemplateForm.formData (TemplateForm.prefillForm TemplateForm.created)))
  = TemplateForm.confirmPassword (TemplateForm.passwords
    (TemplateForm.formData (TemplateForm.prefillForm TemplateForm.created))) /\
  TemplateForm.submitted
    (TemplateForm.run [TemplateForm.Prefill; TemplateForm.Submit true; TemplateForm.Clear])
  = true.
Proof.
  apply (template_submittedData_invariant
           [TemplateForm.Prefill; TemplateForm.Submit true; TemplateForm.Clear]).
  reflexivity.
Defined.

(* ===================================================================== *)
(** ** Properties of [SurveyFormComponent]                                *)
(* ===================================================================== *)

Section SurveyFacts.

Variable number_to_string : float -> string.

Local Abbreviation run := (Survey.run number_to_string).
Local Abbreviation step := (Survey.step number_to_string).
Local Abbreviation valid := (Survey.valid number_to_string).
Local Abbreviation errors := (Survey.errors number_to_string).
Local Abbreviation control_valid := (Survey.control_valid number_to_string).
Local Abbreviation passes_any := (Survey.passes_any number_to_string).
Local Abbreviation initial_control := (Survey.initial_control number_to_string).
Local Abbreviation onSubmit := (Survey.onSubmit number_to_string).
Local Abbreviation hasError := (Survey.hasError number_to_string).
Local Abbreviation getErrorMessage := (Survey.getErrorMessage number_to_string).
Local Abbreviation built qs :=
  (Survey.surveyForm (Survey.ngOnInit number_to_string (Survey.created qs))).

(** *** What [buildForm] builds *)

Lemma fold_assign_notin {A B} (key : B -> string) (val : B -> A) (l : list B)
    (m0 : gmap string A) (k : string) :
  (forall q, q ∈ l -> key q <> k) ->
  fold_left (fun m q => Survey.assign (key q) (val q) m) l m0 !! k = m0 !! k.
Proof.
  revert m0. induction l as [|q l IH]; intros m0 H; simpl; [done |].
  rewrite IH by (intros q' Hq'; apply H; by right).
  unfold Survey.assign. destruct (String.eqb (key q) "__proto__"); [done |].
  apply lookup_insert_ne, H. by left.
Qed.

Lemma fold_assign_in {A B} (key : B -> string) (val : B -> A) (l : list B)
    (m0 : gmap string A) (q : B) :
  NoDup (map key l) -> q ∈ l -> key q <> "__proto__" ->
  fold_left (fun m q => Survey.assign (key q) (val q) m) l m0 !! key q = Some (val q).
Proof.
  revert m0. induction l as [|q' l IH]; intros m0 Hnd Hin Hplain; [by inversion Hin |].
  simpl in *. apply NoDup_cons in Hnd as [Hnotin Hnd].
  destruct (decide (key q' = key q)) as [Heq | Hne].
  - rewrite fold_assign_notin.
    + unfold Survey.assign. rewrite Heq.
      destruct (String.eqb_spec (key q) "__proto__") as [E | _]; [done |].
      rewrite lookup_insert_eq. f_equal.
      apply elem_of_cons in Hin as [-> | Hin]; [done |].
      exfalso. apply Hnotin. rewrite Heq. apply list_elem_of_fmap. eauto.
    + intros q'' Hq'' E. apply Hnotin. rewrite Heq, <- E.
      apply list_elem_of_fmap. eauto.
  - apply IH; [done | | done].
    apply elem_of_cons in Hin as [-> | Hin]; [done | done].
Qed.

Lemma fold_assign_proto {A B} (key : B -> string) (val : B -> A) (l : list B)
    (m0 : gmap string A) :
  fold_left (fun m q => Survey.assign (key q) (val q) m) l m0 !! "__proto__"
  = m0 !! "__proto__".
Proof.
  revert m0. induction l as [|q l IH]; intros m0; simpl; [done |].
  rewrite IH. unfold Survey.assign.
  destruct (String.eqb_spec (key q) "__proto__") as [E | Hne]; [done |].
  by apply lookup_insert_ne.
Qed.

Lemma built_lookup_in (qs : list Survey.SurveyQuestion) (q : Survey.SurveyQuestion) :
  NoDup (map Survey.q_id qs) -> q ∈ qs -> Survey.q_id q <> "__proto__" ->
  built qs !! Survey.q_id q = Some (initial_control q).
Proof. intros. simpl. by apply (fold_assign_in Survey.q_id). Qed.

Lemma built_lookup_some (qs : list Survey.SurveyQuestion) (k : string) (c : Survey.Control) :
  built qs !! k = Some c -> k <> "__proto__" /\ exists q, q ∈ qs /\ Survey.q_id q = k.
Proof.
  simpl. intros H. split.
  - intros ->. by rewrite fold_assign_proto in H.
  - destruct (decide (Exists (fun q => Survey.q_id q = k) qs)) as [He | Hne].
    + apply Exists_exists in He. exact He.
    + rewrite fold_assign_notin in H; [done |].
      intros q Hq E. apply Hne, Exists_exists. eauto.
Qed.

(** *** The shape of the form is kept *)

Lemma props_put_names {A} (key : string) (v w : A) (o : Survey.props A) :
  Survey.props_get key o = Some w -> map fst (Survey.props_put key v o) = map fst o.
Proof.
  induction o as [|[k x] o IH]; simpl; [done |].
  destruct (String.eqb k key); simpl; [done |]. intros H. by rewrite IH.
Qed.

Lemma shape_answer (id : string) (v : Survey.AnyValue) (form : gmap string Survey.Control) :
  form_shape (Survey.answer id v form) = form_shape form.
Proof.
  unfold Survey.answer. destruct (form !! id) as [[v' fs | boxes]|] eqn:E; try done.
  unfold form_shape. rewrite fmap_insert. apply insert_id.
  by rewrite lookup_fmap, E.
Qed.

Lemma shape_tick (id box : string) (b : bool) (form : gmap string Survey.Control) :
  form_shape (Survey.tick id box b form) = form_shape form.
Proof.
  unfold Survey.tick. destruct (form !! id) as [[v' fs | boxes]|] eqn:E; try done.
  destruct (Survey.props_get box boxes) as [w|] eqn:Eb; [| done].
  unfold form_shape. rewrite fmap_insert. apply insert_id.
  rewrite lookup_fmap, E. simpl. by rewrite (props_put_names _ _ w).
Qed.

Lemma shape_reset (form : gmap string Survey.Control) :
  form_shape (Survey.reset_control <$> form) = form_shape form.
Proof.
  unfold form_shape. rewrite <- map_fmap_compose. apply map_fmap_ext.
  intros k [v fs | boxes] _; simpl; [done |]. by rewrite map_map.
Qed.

Lemma shape_survey_step (c : Survey.Component) (e : Survey.Event) :
  form_shape (Survey.surveyForm (step c e)) = form_shape (Survey.surveyForm c).
Proof.
  destruct e; simpl.
  - apply shape_answer.
  - apply shape_tick.
  - unfold Survey.onSubmit. by case_match.
  - apply shape_reset.
Qed.

Lemma survey_run_snoc (qs : list Survey.SurveyQuestion) (es : list Survey.Event)
    (e : Survey.Event) :
  run qs (es ++ [e]) = step (run qs es) e.
Proof. unfold Survey.run. by rewrite fold_left_app. Qed.

Lemma shape_survey_run (qs : list Survey.SurveyQuestion) (es : list Survey.Event) :
  form_shape (Survey.surveyForm (run qs es)) = form_shape (built qs).
Proof.
  induction es as [|e es IH] using rev_ind; [done |].
  by rewrite survey_run_snoc, shape_survey_step.
Qed.

Lemma same_shape_lookup (f g : gmap string Survey.Control) (k : string) :
  form_shape f = form_shape g ->
  control_shape <$> f !! k = control_shape <$> g !! k.
Proof. intros H. unfold form_shape in H. by rewrite <- !lookup_fmap, H. Qed.

(** In a session, the control of a question is of the kind [buildForm]
    made it. *)
Lemma run_lookup_field (qs : list Survey.SurveyQuestion) (es : list Survey.Event)
    (q : Survey.SurveyQuestion) :
  NoDup (map Survey.q_id qs) -> q ∈ qs -> Survey.q_id q <> "__proto__" ->
  Survey.is_checkbox q = false ->
  exists v, Survey.surveyForm (run qs es) !! Survey.q_id q
            = Some (Survey.Field v (Survey.validators_of q)).
Proof.
  intros Hnd Hq Hplain Hk.
  pose proof (same_shape_lookup _ _ (Survey.q_id q) (shape_survey_run qs es)) as H.
  rewrite (built_lookup_in qs q Hnd Hq Hplain) in H.
  unfold Survey.initial_control in H. rewrite Hk in H. simpl in H.
  destruct (Survey.surveyForm (run qs es) !! Survey.q_id q) as [[v fs | boxes]|];
    simpl in H; try discriminate H.
  injection H as ->. eauto.
Qed.

Lemma run_lookup_group (qs : list Survey.SurveyQuestion) (es : list Survey.Event)
    (q : Survey.SurveyQuestion) :
  NoDup (map Survey.q_id qs) -> q ∈ qs -> Survey.q_id q <> "__proto__" ->
  Survey.is_checkbox q = true ->
  exists boxes, Survey.surveyForm (run qs es) !! Survey.q_id q = Some (Survey.Group boxes) /\
                map fst boxes = map fst (Survey.checkboxControls number_to_string q).
Proof.
  intros Hnd Hq Hplain Hk.
  pose proof (same_shape_lookup _ _ (Survey.q_id q) (shape_survey_run qs es)) as H.
  rewrite (built_lookup_in qs q Hnd Hq Hplain) in H.
  unfold Survey.initial_control in H. rewrite Hk in H. simpl in H.
  destruct (Survey.surveyForm (run qs es) !! Survey.q_id q) as [[v fs | boxes]|];
    simpl in H; try discriminate H.
  injection H as H. eauto.
Qed.

Lemma run_lookup_some (qs : list Survey.SurveyQuestion) (es : list Survey.Event)
    (k : string) (c : Survey.Control) :
  Survey.surveyForm (run qs es) !! k = Some c ->
  k <> "__proto__" /\ exists q, q ∈ qs /\ Survey.q_id q = k.
Proof.
  intros Hc.
  pose proof (same_shape_lookup _ _ k (shape_survey_run qs es)) as H.
  rewrite Hc in H.
  destruct (built qs !! k) as [c'|] eqn:E; [| simpl in H; discriminate H].
  by apply (built_lookup_some qs k c').
Qed.


(** *** Validity *)

Lemma survey_valid_lookup (form : gmap string Survey.Control) :
  valid form = true <-> forall k c, form !! k = Some c -> control_valid c = true.
Proof. unfold Survey.valid. rewrite bool_decide_eq_true. apply map_Forall_lookup. Qed.

Lemma control_valid_field (v : Survey.AnyValue) (fs : list Validator) :
  control_valid (Survey.Field v fs) = forallb (passes_any v) fs.
Proof.
  unfold Survey.control_valid. simpl. induction fs as [|f fs IH]; [done |].
  rewrite filter_cons. simpl. destruct (passes_any v f) eqn:E; case_decide; try done.
Qed.

Lemma valid_insert_group (form : gmap string Survey.Control) (id : string)
    (boxes boxes' : Survey.props Survey.AnyValue) :
  form !! id = Some (Survey.Group boxes) ->
  valid (<[id := Survey.Group boxes']> form) = valid form.
Proof.
  intros Hid. apply eq_true_iff_eq. rewrite !survey_valid_lookup. split.
  - intros H k c Hc. destruct (decide (k = id)) as [-> | Hne].
    + rewrite Hid in Hc. by injection Hc as <-.
    + apply (H k). by rewrite lookup_insert_ne.
  - intros H k c Hc. destruct (decide (k = id)) as [-> | Hne].
    + rewrite lookup_insert_eq in Hc. by injection Hc as <-.
    + rewrite lookup_insert_ne in Hc by done. by apply (H k).
Qed.

Lemma valid_tick (id box : string) (b : bool) (form : gmap string Survey.Control) :
  valid (Survey.tick id box b form) = valid form.
Proof.
  unfold Survey.tick. destruct (form !! id) as [[v fs | boxes]|] eqn:E; try done.
  destruct (Survey.props_get box boxes); [| done]. by apply (valid_insert_group _ _ boxes).
Qed.


(** *** Check-box questions *)

Lemma split_dots_nonempty (cur w : list ascii) : Survey.split_dots cur w <> [].
Proof. revert cur. induction w as [|c w IH]; intros cur; simpl; [done |]. by case_match. Qed.

Lemma split_dots_single (cur w : list ascii) (s : string) :
  Survey.split_dots cur w = [s] -> s = string_of_list_ascii (rev cur ++ w).
Proof.
  revert cur. induction w as [|c w IH]; intros cur; simpl.
  - intros [= <-]. by rewrite app_nil_r.
  - destruct (Ascii.eqb c "."); intros H.
    + injection H as _ H. by apply split_dots_nonempty in H.
    + apply IH in H. simpl in H. by rewrite <- app_assoc in H.
Qed.

Lemma get_cases (form : gmap string Survey.Control) (path : string) :
  Survey.get form path = form !! path \/
  (exists v, Survey.get form path = Some (Survey.Field v [])) \/
  Survey.get form path = None.
Proof.
  unfold Survey.get.
  destruct (Survey.split_dots [] (list_ascii_of_string path)) as [|name [|box [|? ?]]] eqn:E.
  - right. by right.
  - left. apply split_dots_single in E. simpl in E.
    rewrite string_of_list_ascii_of_string in E. by subst name.
  - destruct (form !! name) as [[v fs | boxes]|]; try (right; by right).
    destruct (Survey.props_get box boxes) as [v|]; [right; left; by exists v | right; by right].
  - right. by right.
Qed.

Lemma run_lookup_checkbox (qs : list Survey.SurveyQuestion) (es : list Survey.Event)
    (q : Survey.SurveyQuestion) :
  NoDup (map Survey.q_id qs) -> q ∈ qs -> Survey.is_checkbox q = true ->
  forall c, Survey.surveyForm (run qs es) !! Survey.q_id q = Some c -> errors c = [].
Proof.
  intros Hnd Hq Hk c Hc.
  destruct (run_lookup_some qs es _ c Hc) as [Hplain _].
  destruct (run_lookup_group qs es q Hnd Hq Hplain Hk) as (boxes & Hb & _).
  rewrite Hb in Hc. by injection Hc as <-.
Qed.



(** *** Submitting and resetting *)

Lemma questions_run (qs : list Survey.SurveyQuestion) (es : list Survey.Event) :
  Survey.questions (run qs es) = qs.
Proof.
  induction es as [|e es IH] using rev_ind; [done |].
  rewrite survey_run_snoc. destruct e; simpl; try done.
  unfold Survey.onSubmit. by case_match.
Qed.

(** X21 - What the survey has recorded is a snapshot of a valid form: in
    every state of a session, recorded data is the value the form had at an
    earlier submit that found it valid, no reset has happened since, and the
    [submitted] flag is set. *)
Theorem survey_submittedData_snapshot
    (qs : list Survey.SurveyQuestion) (es : list Survey.Event)
    (data : gmap string Survey.FormValue) :
  Survey.submittedData (run qs es) = Some data ->
  Survey.submitted (run qs es) = true /\
  exists es1 es2,
    es = es1 ++ Survey.Submit :: es2 /\
    valid (Survey.surveyForm (run qs es1)) = true /\
    data = Survey.form_value (Survey.surveyForm (run qs es1)) /\
    Survey.Reset ∉ es2.
Proof.
  revert data. induction es as [|e es IH] using rev_ind; intros data; [discriminate |].
  rewrite survey_run_snoc.
  assert (forall e', e' <> Survey.Reset ->
            Survey.submittedData (run qs es) = Some data ->
            Survey.submitted (run qs es) = true /\
            exists es1 es2, es ++ [e'] = es1 ++ Survey.Submit :: es2 /\
              valid (Survey.surveyForm (run qs es1)) = true /\
              data = Survey.form_value (Survey.surveyForm (run qs es1)) /\
              Survey.Reset ∉ es2) as Hkeep.
  { intros e' He' H. destruct (IH data H) as (Hs & es1 & es2 & -> & Hv & Hd & Hr).
    split; [done |]. exists es1, (es2 ++ [e']).
    split; [by rewrite <- app_assoc |]. split; [done |]. split; [done |].
    rewrite elem_of_app, list_elem_of_singleton. intros [? | ?]; [done | congruence]. }
  destruct e as [id v | id box b | |]; simpl.
  - by apply Hkeep.
  - by apply Hkeep.
  - unfold Survey.onSubmit.
    destruct (valid (Survey.surveyForm (run qs es))) eqn:Hv; simpl.
    + intros [= <-]. split; [done |]. exists es, []. repeat split; try done.
      apply not_elem_of_nil.
    + intros H. destruct (Hkeep Survey.Submit (ltac:(done)) H) as [_ Hex]. by split.
  - discriminate.
Qed.


(** *** [getResults] *)

Lemma getResults_fold (data : gmap string Survey.FormValue)
    (l : list Survey.SurveyQuestion) (m0 : gmap string Survey.ResultValue) :
  (forall q, q ∈ l -> Survey.result_of q (data !! Survey.q_id q) <> Survey.Threw) ->
  fold_left
    (fun results question =>
       match results with
       | Survey.Returned (Some results) =>
           match Survey.result_of question (data !! Survey.q_id question) with
           | Survey.Returned r =>
               Survey.Returned (Some (Survey.assign (Survey.q_label question) r results))
           | Survey.Threw => Survey.Threw
           end
       | other => other
       end) l (Survey.Returned (Some m0))
  = Survey.Returned
      (Some (fold_left (fun m q => Survey.assign (Survey.q_label q) (entry_of data q) m) l m0)).
Proof.
  revert m0. induction l as [|q l IH]; intros m0 H; simpl; [done |].
  assert (Survey.result_of q (data !! Survey.q_id q) <> Survey.Threw) as Hq
    by (apply H; by left).
  unfold entry_of at 2.
  destruct (Survey.result_of q (data !! Survey.q_id q)) as [|r]; [done |].
  apply IH. intros q' Hq'. apply H. by right.
Qed.

Lemma result_of_returns (qs : list Survey.SurveyQuestion) (es : list Survey.Event)
    (q : Survey.SurveyQuestion) :
  NoDup (map Survey.q_id qs) -> q ∈ qs -> Survey.q_id q <> "__proto__" ->
  Survey.result_of q (Survey.form_value (Survey.surveyForm (run qs es)) !! Survey.q_id q)
  <> Survey.Threw.
Proof.
  intros Hnd Hq Hplain. unfold Survey.result_of.
  destruct (Survey.q_type q) eqn:Ht; try (repeat case_match; discriminate).
  assert (Survey.is_checkbox q = true) as Hk by (unfold Survey.is_checkbox; by rewrite Ht).
  destruct (run_lookup_group qs es q Hnd Hq Hplain Hk) as (boxes & Hb & _).
  unfold Survey.form_value. rewrite lookup_fmap, Hb. simpl. discriminate.
Qed.

Lemma survey_submittedData_snapshot_aux
    (qs : list Survey.SurveyQuestion) (es : list Survey.Event)
    (data : gmap string Survey.FormValue) :
  Survey.submittedData (run qs es) = Some data ->
  exists es1, data = Survey.form_value (Survey.surveyForm (run qs es1)).
Proof.
  revert data. induction es as [|e es IH] using rev_ind; intros data; [discriminate |].
  rewrite survey_run_snoc. destruct e as [id v | id box b | |]; simpl; try apply IH.
  - unfold Survey.onSubmit. case_match; simpl; [| apply IH].
    intros [= <-]. by exists es.
  - discriminate.
Qed.


(** *** The answer to a check-box question *)

Lemma props_put_fresh_names {A} (key : string) (v : A) (o : Survey.props A) :
  key ∉ map fst o -> map fst (Survey.props_put key v o) = map fst o ++ [key].
Proof.
  induction o as [|[k x] o IH]; simpl; [done |]. intros H.
  apply not_elem_of_cons in H as [Hne H].
  destruct (String.eqb_spec k key) as [E | _]; [congruence |]. simpl. by rewrite IH.
Qed.

Lemma checkbox_names (opts : list Survey.SurveyOption) (names : list string)
    (acc : Survey.props Survey.AnyValue) :
  map Survey.opt_value opts = map Survey.AStr names ->
  NoDup names ->
  (forall s, s ∈ names -> (s ∉ map fst acc) /\ s <> "__proto__") ->
  map fst
    (fold_left
       (fun acc option =>
          Survey.props_assign (Survey.to_string number_to_string (Survey.opt_value option))
            (Survey.ABool false) acc) opts acc)
  = map fst acc ++ names.
Proof.
  revert names acc. induction opts as [|o opts IH]; intros names acc Hv Hnd Hfresh.
  - destruct names; [| discriminate Hv]. simpl. by rewrite app_nil_r.
  - destruct names as [|s names]; [discriminate Hv |].
    simpl in Hv. injection Hv as Ho Hv. apply NoDup_cons in Hnd as [Hs Hnd].
    destruct (Hfresh s (ltac:(by left))) as [Hsacc Hsproto].
    simpl. rewrite Ho. simpl. unfold Survey.props_assign.
    destruct (String.eqb_spec s "__proto__") as [E | _]; [done |].
    rewrite (IH names); [| done | done |].
    + rewrite props_put_fresh_names by done. by rewrite <- app_assoc.
    + intros s' Hs'. destruct (Hfresh s' (ltac:(by right))) as [Hacc Hproto].
      split; [| done]. rewrite props_put_fresh_names by done.
      rewrite elem_of_app, list_elem_of_singleton. intros [? | ->]; done.
Qed.

Lemma keys_without_index {A} (o : Survey.props A) :
  Forall (fun k => Survey.array_index k = None) (map fst o) -> Survey.keys o = map fst o.
Proof.
  unfold Survey.keys. intros H.
  assert (omap (fun k => n ← Survey.array_index k; Some (n, k)) (map fst o) = []) as ->.
  { induction (map fst o) as [|k l IH]; [done |].
    apply Forall_cons in H as [Hk H]. simpl. rewrite Hk. simpl. by apply IH. }
  simpl. induction (map fst o) as [|k l IH]; [done |].
  apply Forall_cons in H as [Hk H]. rewrite filter_cons. case_decide; [| done].
  f_equal. by apply IH.
Qed.

Lemma strict_eq_string (v : Survey.AnyValue) (s : string) :
  Survey.strict_eq v (Survey.AStr s) = true <-> v = Survey.AStr s.
Proof.
  destruct v; simpl; try (split; done).
  rewrite String.eqb_eq. split; [by intros -> | by intros [= ->]].
Qed.

Lemma option_label_of (opts : list Survey.SurveyOption) (names : list string)
    (o : Survey.SurveyOption) (s : string) :
  map Survey.opt_value opts = map Survey.AStr names -> NoDup names ->
  o ∈ opts -> Survey.opt_value o = Survey.AStr s ->
  find (fun o' => Survey.strict_eq (Survey.opt_value o') (Survey.AStr s)) opts = Some o.
Proof.
  revert names. induction opts as [|o' opts IH]; intros names Hv Hnd Hin Ho;
    [by inversion Hin |].
  destruct names as [|s' names]; [discriminate Hv |].
  simpl in Hv. injection Hv as Ho' Hv. apply NoDup_cons in Hnd as [Hs' Hnd].
  simpl. rewrite Ho'. simpl.
  apply elem_of_cons in Hin as [-> | Hin].
  - rewrite Ho' in Ho. injection Ho as ->. by rewrite String.eqb_refl.
  - destruct (String.eqb_spec s' s) as [-> | _]; [| by apply (IH names)].
    exfalso. apply Hs'.
    assert (Survey.AStr s ∈ map Survey.AStr names) as Hm.
    { rewrite <- Hv, <- Ho. apply list_elem_of_fmap. eauto. }
    apply list_elem_of_fmap in Hm as (s'' & [= ->] & Hs''). done.
Qed.

Lemma ticked_labels_eq (opts : list Survey.SurveyOption) (names : list string)
    (boxes : Survey.props Survey.AnyValue) (G : string -> string) :
  map Survey.opt_value opts = map Survey.AStr names ->
  (forall o s, o ∈ opts -> Survey.opt_value o = Survey.AStr s ->
               G s = Survey.or_else (Some (Survey.opt_label o)) s) ->
  map G (filter (fun key => from_option Survey.truthy false (Survey.props_get key boxes) = true)
                names)
  = omap (fun o =>
            match Survey.opt_value o with
            | Survey.AStr s =>
                if from_option Survey.truthy false (Survey.props_get s boxes)
                then Some (Survey.or_else (Some (Survey.opt_label o)) s)
                else None
            | _ => None
            end) opts.
Proof.
  revert names. induction opts as [|o opts IH]; intros names Hv HG.
  - by destruct names.
  - destruct names as [|s names]; [discriminate Hv |].
    simpl in Hv. injection Hv as Ho Hv. simpl. rewrite Ho, filter_cons.
    assert (forall o' s', o' ∈ opts -> Survey.opt_value o' = Survey.AStr s' ->
              G s' = Survey.or_else (Some (Survey.opt_label o')) s') as HG'.
    { intros o' s' Ho'. apply HG. by right. }
    pose proof (IH names Hv HG') as IH'.
    destruct (from_option Survey.truthy false (Survey.props_get s boxes)) eqn:E;
      case_decide; try done; simpl; rewrite IH'; try done.
    f_equal. apply HG; [by left | done].
Qed.


End SurveyFacts.

(** *** The survey of the component *)

Lemma defaultQuestions_ids : NoDup (map Survey.q_id Survey.defaultQuestions).
Proof. apply (bool_decide_unpack _). vm_compute. reflexivity. Qed.

Lemma defaultQuestions_labels : NoDup (map Survey.q_label Survey.defaultQuestions).
Proof. apply (bool_decide_unpack _). vm_compute. reflexivity. Qed.



Lemma survey_submittedData_snapshot_witness :
  Survey.submitted
    (Survey.run integer_to_string Survey.defaultQuestions
       (answered ++ [Survey.Tick "features" "ui" false])) = true /\
  exists es1 es2,
    answered ++ [Survey.Tick "features" "ui" false] = es1 ++ Survey.Submit :: es2 /\
    Survey.valid integer_to_string
      (Survey.surveyForm (Survey.run integer_to_string Survey.defaultQuestions es1)) = true /\
    Survey.form_value
      (Survey.surveyForm (Survey.run integer_to_string Survey.defaultQuestions
                            [ Survey.Answer "satisfaction" (Survey.ANum 5);
                              Survey.Tick "features" "ui" true;
                              Survey.Tick "features" "docs" true;
                              Survey.Answer "recommendation" (Survey.AStr "likely") ]))
    = Survey.form_value
        (Survey.surveyForm (Survey.run integer_to_string Survey.defaultQuestions es1)) /\
    Survey.Reset ∉ es2.
Proof.
  apply (survey_submittedData_snapshot integer_to_string Survey.defaultQuestions
           (answered ++ [Survey.Tick "features" "ui" false])).
  vm_compute. reflexivity.
Defined.



